(** * MOT-Tests: the exploratory analysis scripts, embedded and verified

    The repository holds two versions of one pandas script:
    [main.py] and [.ipynb_checkpoints/main-checkpoint.py].  Both load a
    sample of MOT test results into a DataFrame [df], normalise the two
    date columns, filter, look for duplicated vehicle ids, try to drop
    them, and derive a pass/fail label whose mean is the pass rate.

    The embedding is row oriented: a DataFrame is the list of its rows,
    in index order, and a row is a record of the columns the scripts
    touch.  pandas objects live in a store addressed by locations, so the
    difference between a method that returns a new object and one that
    mutates its receiver is visible.

    Modelling conventions, all at the level of the documented pandas API:
    - [datetime64] values are integers (nanoseconds since the epoch) or
      [NaT]; a difference of two of them is an [int64] number of
      nanoseconds, and the subtraction raises when it does not fit;
    - a cell can be missing in the two date columns and in the text
      columns [test_result], [make] and [model]; the identifier columns
      hold integers and the other category columns hold text;
    - [astype("category")] leaves the cells as they are; what it adds,
      the set of categories of a column, is kept for [test_result],
      the one column whose categories decide a result: [apply] maps
      the categories, and [mean] refuses a categorical column;
    - text parsing of dates is pandas' own and is a parameter
      ([DateParser]); a parser for the [YYYY-MM-DD] form of the data set
      is supplied for the concrete examples;
    - [sort_values] is called with its default [kind], which makes no
      promise on the order of rows with equal keys: the sort is a
      parameter too ([Sorter]), known only to return a sorted
      permutation; a merge sort instance is supplied for the examples;
    - [mean] returns an exact rational, or [NaN], or raises. *)

From Stdlib Require Import ZArith QArith String Ascii List Sorting Permutation Lia.
From stdpp Require Import base option list gmap strings sorting.

#[local] Set Warnings "-clear-no-such-hyp".
Local Open Scope string_scope.
Local Open Scope Z_scope.

(** ** Values *)

(** A [datetime64\[ns\]] cell. *)
Inductive datetime : Type :=
  | NaT
  | Stamp (t : Z).

(** A [timedelta64\[ns\]] cell. *)
Inductive timedelta : Type :=
  | NaTd
  | Delta (d : Z).

(** A cell of a text column as [read_csv] leaves it: the field's text, or
    NaN for an empty field. *)
Inductive csv_cell : Type :=
  | Blank
  | Text (s : string).

(** The result of [Series.mean]: a float, here an exact rational, or NaN. *)
Inductive fnum : Type :=
  | NaN
  | Num (q : Q).

(** A cell of the derived column [test_result_passed]: a number, or NaN
    where [test_result] is missing. *)
Inductive label_cell : Type :=
  | label_NaN
  | label (v : Z).

(** The dtype of the column [test_result_passed], as far as [mean]
    tells them apart. *)
Inductive label_dtype : Type :=
  | dtype_category
  | dtype_number.

#[global] Instance datetime_eq_dec : EqDecision datetime.
Proof. solve_decision. Defined.
#[global] Instance timedelta_eq_dec : EqDecision timedelta.
Proof. solve_decision. Defined.
#[global] Instance csv_cell_eq_dec : EqDecision csv_cell.
Proof. solve_decision. Defined.
#[global] Instance label_cell_eq_dec : EqDecision label_cell.
Proof. solve_decision. Defined.
#[global] Instance label_dtype_eq_dec : EqDecision label_dtype.
Proof. solve_decision. Defined.

(** The order [sort_values] uses on a datetime column, ascending with
    [na_position="last"]. *)
Definition datetime_leb (a b : datetime) : bool :=
  match a, b with
  | Stamp x, Stamp y => x <=? y
  | _, NaT => true
  | NaT, Stamp _ => false
  end.

Definition datetime_le (a b : datetime) : Prop := datetime_leb a b = true.

(** Float comparison: every comparison with NaN is false. *)
Definition fnum_leb (a b : fnum) : bool :=
  match a, b with
  | Num x, Num y => if Qle_bool x y then true else false
  | _, _ => false
  end.

(** [0 <= m <= 1] as Python evaluates the chained comparison. *)
Definition in_unit_interval (m : fnum) : bool :=
  fnum_leb (Num 0%Q) m && fnum_leb m (Num 1%Q).

(** ** Exceptions *)

Inductive exn : Type :=
  | ValueError      (* to_datetime: a value that does not parse *)
  | TypeError       (* mean() of a categorical column *)
  | OverflowError   (* a difference of dates that does not fit int64 *)
  | AttributeError  (* df.col on a column that does not exist *)
  | KeyError.       (* a location that holds no object; no script reaches it *)

Inductive result (A : Type) : Type :=
  | Ok (a : A)
  | Raised (e : exn).
Arguments Ok {A} a.
Arguments Raised {A} e.

Definition result_bind {A B} (r : result A) (k : A → result B) : result B :=
  match r with
  | Ok a => k a
  | Raised e => Raised e
  end.

Fixpoint result_mapM {A B} (f : A → result B) (l : list A) : result (list B) :=
  match l with
  | [] => Ok []
  | x :: l' =>
      result_bind (f x) (λ y,
      result_bind (result_mapM f l') (λ ys, Ok (y :: ys)))
  end.

(** The bounds of [int64]; the least value is the NaT of a
    [timedelta64]. *)
Definition int64_min : Z := - 2 ^ 63.
Definition int64_max : Z := 2 ^ 63 - 1.

(** [test_date - first_use_date] on two datetime cells: NaT on either side
    gives NaT; the difference of two timestamps is computed in [int64]
    with an overflow check. *)
Definition datetime_sub (a b : datetime) : result timedelta :=
  match a, b with
  | Stamp x, Stamp y =>
      if (x - y <? int64_min) || (int64_max <? x - y) then Raised OverflowError
      else if x - y =? int64_min then Ok NaTd
      else Ok (Delta (x - y))
  | _, _ => Ok NaTd
  end.

(** ** Rows *)

(** A row as [read_csv] produces it (line 12 of [main.py], line 15 of the
    checkpoint): the date columns are still text. *)
Record RawRecord : Type := mkRaw {
  raw_test_id : Z;
  raw_vehicle_id : Z;
  raw_test_date : csv_cell;
  raw_first_use_date : csv_cell;
  raw_test_type : string;
  raw_test_result : csv_cell;
  raw_test_class_id : Z;
  raw_postcode_area : string;
  raw_make : csv_cell;
  raw_model : csv_cell;
  raw_colour : string;
  raw_fuel_type : string
}.

(** A row of the working table once the date columns are datetimes.  The
    three derived columns are [None] until the statement that assigns
    them has run. *)
Record TestRecord : Type := mkRow {
  test_id : Z;
  vehicle_id : Z;
  test_date : datetime;
  first_use_date : datetime;
  test_type : string;
  test_result : csv_cell;
  test_class_id : Z;
  postcode_area : string;
  make : csv_cell;
  model : csv_cell;
  colour : string;
  fuel_type : string;
  test_result_passed : option label_cell;
  vehicle_age : option timedelta;
  make_model : option string
}.

#[global] Instance RawRecord_eq_dec : EqDecision RawRecord.
Proof. solve_decision. Defined.
#[global] Instance TestRecord_eq_dec : EqDecision TestRecord.
Proof. solve_decision. Defined.

Abbreviation frame := (list TestRecord).

(** ** Type Normalizer: [pd.to_datetime] *)

(** pandas' text-to-timestamp parser; [None] when the text does not
    parse. *)
Class DateParser : Type := parse_datetime_string : string → option Z.

(** The [errors] argument of [to_datetime]. *)
Inductive errors_arg : Type :=
  | errors_raise    (* the default *)
  | errors_coerce.

Section to_datetime.
Context `{DateParser}.

Definition convert_cell (errors : errors_arg) (c : csv_cell) : result datetime :=
  match c with
  | Blank => Ok NaT
  | Text s =>
      match parse_datetime_string s with
      | Some t => Ok (Stamp t)
      | None =>
          match errors with
          | errors_raise => Raised ValueError
          | errors_coerce => Ok NaT
          end
      end
  end.

(** [pd.to_datetime(column, errors=...)]. *)
Definition to_datetime (errors : errors_arg) (column : list csv_cell)
  : result (list datetime) :=
  result_mapM (convert_cell errors) column.

(** The row that carries the two converted cells in place of the text
    ones; every other column is copied. *)
Definition with_dates (r : RawRecord) (td fud : datetime) : TestRecord :=
  {| test_id := raw_test_id r;
     vehicle_id := raw_vehicle_id r;
     test_date := td;
     first_use_date := fud;
     test_type := raw_test_type r;
     test_result := raw_test_result r;
     test_class_id := raw_test_class_id r;
     postcode_area := raw_postcode_area r;
     make := raw_make r;
     model := raw_model r;
     colour := raw_colour r;
     fuel_type := raw_fuel_type r;
     test_result_passed := None;
     vehicle_age := None;
     make_model := None |}.

(** Assigning the two converted columns back, position by position. *)
Fixpoint assign_dates (rows : list RawRecord) (tds fuds : list datetime)
  : list TestRecord :=
  match rows, tds, fuds with
  | r :: rows', td :: tds', fud :: fuds' =>
      with_dates r td fud :: assign_dates rows' tds' fuds'
  | _, _, _ => []
  end.

(** Lines 16-17 of [main.py], 30-31 of the checkpoint:
<<
    df.test_date = pd.to_datetime(df.test_date)
    df.first_use_date = pd.to_datetime(df.first_use_date, errors='coerce')
>> *)
Definition type_normalizer (rows : list RawRecord) : result frame :=
  result_bind (to_datetime errors_raise (map raw_test_date rows)) (λ tds,
  result_bind (to_datetime errors_coerce (map raw_first_use_date rows)) (λ fuds,
  Ok (assign_dates rows tds fuds))).
End to_datetime.

(** ** pandas operations on columns and frames *)

(** [df[mask]]: the rows whose mask entry is [True], in order. *)
Fixpoint boolean_index {A} (mask : list bool) (rows : list A) : list A :=
  match mask, rows with
  | b :: mask', r :: rows' =>
      if b then r :: boolean_index mask' rows' else boolean_index mask' rows'
  | _, _ => []
  end.

(** The values of a text column that are not missing. *)
Fixpoint texts (column : list csv_cell) : list string :=
  match column with
  | [] => []
  | Blank :: column' => texts column'
  | Text s :: column' => s :: texts column'
  end.

(** [astype(str)]: the text of a cell; a missing cell reads "nan". *)
Definition astype_str (c : csv_cell) : string :=
  match c with
  | Blank => "nan"
  | Text s => s
  end.

(** [Series.apply(f)] on a category column: [f] is applied to the
    categories, so a cell gets the image of its category and a missing
    cell stays missing. *)
Definition apply (f : string → Z) (column : list csv_cell) : list label_cell :=
  map (λ c, match c with
            | Blank => label_NaN
            | Text category => label (f category)
            end) column.

(** The dtype of what [apply] returns.  An empty column is returned as
    it is, a categorical.  Otherwise the result is a categorical again
    when the images of the categories are pairwise distinct, and a
    column of numbers when two categories share an image. *)
Definition apply_dtype (f : string → Z) (categories : gset string)
    (column : list csv_cell) : label_dtype :=
  match column with
  | [] => dtype_category
  | _ :: _ =>
      if bool_decide (NoDup (map f (elements categories)))
      then dtype_category else dtype_number
  end.

Definition sum_Z (column : list Z) : Z := foldr Z.add 0 column.

(** The numbers of a column, its NaN cells left out. *)
Fixpoint dropna (column : list label_cell) : list Z :=
  match column with
  | [] => []
  | label_NaN :: column' => dropna column'
  | label v :: column' => v :: dropna column'
  end.

(** [Series.mean()] on a column of numbers: the sum over the count of
    the cells that are not NaN, and NaN when there is none. *)
Definition mean (column : list label_cell) : fnum :=
  match dropna column with
  | [] => NaN
  | _ :: _ => Num (sum_Z (dropna column) # Pos.of_nat (length (dropna column)))
  end.

Section duplicates.
Context {A K : Type} `{Countable K}.
Variable subset : A → K.

(** [duplicated(subset, keep="first")]: a row is marked when its key was
    seen on an earlier row. *)
Fixpoint duplicated_from (seen : gset K) (rows : list A) : list bool :=
  match rows with
  | [] => []
  | r :: rows' =>
      bool_decide (subset r ∈ seen)
        :: duplicated_from ({[subset r]} ∪ seen) rows'
  end.

Definition duplicated (rows : list A) : list bool := duplicated_from ∅ rows.

(** The rows not marked, given the keys already seen. *)
Definition keep_unseen (seen : gset K) (rows : list A) : list A :=
  boolean_index (map negb (duplicated_from seen rows)) rows.

(** [drop_duplicates(subset, keep="first")] is [self[~self.duplicated(...)]]. *)
Definition drop_duplicates (rows : list A) : list A :=
  boolean_index (map negb (duplicated rows)) rows.

(** The rows [drop_duplicates] leaves out: [self[self.duplicated(...)]]. *)
Definition discarded (rows : list A) : list A :=
  boolean_index (duplicated rows) rows.

(** [Series.nunique()]: the number of distinct values. *)
Definition nunique (rows : list A) : nat :=
  size (list_to_set (map subset rows) : gset K).
End duplicates.

(** [sort_values(by=...)] on a datetime column, ascending, NaT last, with
    the default [kind]: some permutation of the rows that is sorted. *)
Class Sorter : Type := {
  sort_values : (TestRecord → datetime) → frame → frame;
  sort_values_perm by_ fr : sort_values by_ fr ≡ₚ fr;
  sort_values_sorted by_ fr :
    StronglySorted (λ a b, datetime_le (by_ a) (by_ b)) (sort_values by_ fr)
}.

(** ** The Feature Deriver's column assignments *)

(** The lambda of line 40 of [main.py], 69 of the checkpoint:
    [lambda result_code: 1 if result_code == "P" else 0]. *)
Definition passed_of_code (result_code : string) : Z :=
  if String.eqb result_code "P" then 1 else 0.

Definition set_test_result_passed (r : TestRecord) (v : label_cell) : TestRecord :=
  {| test_id := test_id r; vehicle_id := vehicle_id r;
     test_date := test_date r; first_use_date := first_use_date r;
     test_type := test_type r; test_result := test_result r;
     test_class_id := test_class_id r; postcode_area := postcode_area r;
     make := make r; model := model r; colour := colour r;
     fuel_type := fuel_type r;
     test_result_passed := Some v;
     vehicle_age := vehicle_age r; make_model := make_model r |}.

Definition set_vehicle_age (r : TestRecord) (v : timedelta) : TestRecord :=
  {| test_id := test_id r; vehicle_id := vehicle_id r;
     test_date := test_date r; first_use_date := first_use_date r;
     test_type := test_type r; test_result := test_result r;
     test_class_id := test_class_id r; postcode_area := postcode_area r;
     make := make r; model := model r; colour := colour r;
     fuel_type := fuel_type r;
     test_result_passed := test_result_passed r;
     vehicle_age := Some v; make_model := make_model r |}.

Definition set_make_model (r : TestRecord) (v : string) : TestRecord :=
  {| test_id := test_id r; vehicle_id := vehicle_id r;
     test_date := test_date r; first_use_date := first_use_date r;
     test_type := test_type r; test_result := test_result r;
     test_class_id := test_class_id r; postcode_area := postcode_area r;
     make := make r; model := model r; colour := colour r;
     fuel_type := fuel_type r;
     test_result_passed := test_result_passed r;
     vehicle_age := vehicle_age r; make_model := Some v |}.

(** [df[col] = series]: the series' values go to the rows position by
    position (both carry the index of [df]). *)
Fixpoint assign_column {V} (set : TestRecord → V → TestRecord)
    (fr : frame) (series : list V) : frame :=
  match fr, series with
  | r :: fr', v :: series' => set r v :: assign_column set fr' series'
  | _, _ => []
  end.

(** [df.col] for a derived column: an error while the column has not
    been assigned. *)
Definition column {V} (get : TestRecord → option V) (e : exn) (fr : frame)
  : result (list V) :=
  result_mapM (λ r, match get r with Some v => Ok v | None => Raised e end) fr.

(** [df["test_date"] - df["first_use_date"]], element by element; one
    overflow makes the whole subtraction raise. *)
Fixpoint series_sub (a b : list datetime) : result (list timedelta) :=
  match a, b with
  | x :: a', y :: b' =>
      result_bind (datetime_sub x y) (λ d,
      result_bind (series_sub a' b') (λ ds, Ok (d :: ds)))
  | _, _ => Ok []
  end.

(** [a + " " + b] on two columns of text. *)
Fixpoint series_concat (a b : list string) : list string :=
  match a, b with
  | x :: a', y :: b' => (x ++ " " ++ y)%string :: series_concat a' b'
  | _, _ => []
  end.

(** ** The store of DataFrame objects and the script's globals *)

Definition loc : Type := positive.

Record state : Type := mkState {
  heap : gmap loc frame;                 (* the DataFrame objects *)
  df : loc;                              (* the global [df] *)
  num_duplicate_vehicle_ids : option Z;  (* [None] while unassigned *)
  num_duplicate_tests : option Z;
  shown : list fnum;                     (* values of the bare [mean()] expressions, latest first *)
  test_result_categories : gset string;  (* the categories of the column [test_result] *)
  test_result_passed_dtype : option label_dtype
                                         (* [None] while the column is unassigned *)
}.

(** The table the global [df] refers to. *)
Definition working_table (s : state) : option frame := heap s !! df s.

(** The state right after the load, the Type Normalizer and
    [astype("category")] (lines 12-22 of [main.py], 15-36 of the
    checkpoint): one object, bound to [df]; the categories of
    [test_result] are the values found in the loaded table, and every
    table made from it by a filter or a sort keeps them. *)
Definition initial (fr : frame) : state :=
  {| heap := {[1%positive := fr]}; df := 1%positive;
     num_duplicate_vehicle_ids := None; num_duplicate_tests := None;
     shown := [];
     test_result_categories := list_to_set (texts (map test_result fr));
     test_result_passed_dtype := None |}.

(** Statements and expressions: state passing with exceptions. *)
Definition M (A : Type) : Type := state → result (A * state).

#[global] Instance M_ret : MRet M := λ A a s, Ok (a, s).
#[global] Instance M_bind : MBind M := λ A B k c s,
  match c s with
  | Ok (a, s') => k a s'
  | Raised e => Raised e
  end.

Definition get_df : M loc := λ s, Ok (df s, s).

Definition set_df (l : loc) : M unit := λ s,
  Ok (tt, {| heap := heap s; df := l;
             num_duplicate_vehicle_ids := num_duplicate_vehicle_ids s;
             num_duplicate_tests := num_duplicate_tests s;
             shown := shown s;
             test_result_categories := test_result_categories s;
             test_result_passed_dtype := test_result_passed_dtype s |}).

Definition set_heap (h : gmap loc frame) (s : state) : state :=
  {| heap := h; df := df s;
     num_duplicate_vehicle_ids := num_duplicate_vehicle_ids s;
     num_duplicate_tests := num_duplicate_tests s;
     shown := shown s;
     test_result_categories := test_result_categories s;
     test_result_passed_dtype := test_result_passed_dtype s |}.

(** A new object, at a location not in use. *)
Definition new_object (fr : frame) : M loc := λ s,
  let l := fresh (dom (heap s)) in
  Ok (l, set_heap (<[l := fr]> (heap s)) s).

Definition read (l : loc) : M frame := λ s,
  match heap s !! l with
  | Some fr => Ok (fr, s)
  | None => Raised KeyError
  end.

(** Mutation of the object at [l]. *)
Definition write (l : loc) (fr : frame) : M unit := λ s,
  Ok (tt, set_heap (<[l := fr]> (heap s)) s).

Definition lift {A} (r : result A) : M A := λ s,
  match r with
  | Ok a => Ok (a, s)
  | Raised e => Raised e
  end.

Definition raise {A} (e : exn) : M A := λ _, Raised e.

Definition show (v : fnum) : M unit := λ s,
  Ok (tt, {| heap := heap s; df := df s;
             num_duplicate_vehicle_ids := num_duplicate_vehicle_ids s;
             num_duplicate_tests := num_duplicate_tests s;
             shown := v :: shown s;
             test_result_categories := test_result_categories s;
             test_result_passed_dtype := test_result_passed_dtype s |}).

Definition set_counts (nv nt : Z) : M unit := λ s,
  Ok (tt, {| heap := heap s; df := df s;
             num_duplicate_vehicle_ids := Some nv;
             num_duplicate_tests := Some nt;
             shown := shown s;
             test_result_categories := test_result_categories s;
             test_result_passed_dtype := test_result_passed_dtype s |}).

Definition get_categories : M (gset string) := λ s,
  Ok (test_result_categories s, s).

Definition get_label_dtype : M (option label_dtype) := λ s,
  Ok (test_result_passed_dtype s, s).

Definition set_label_dtype (dtype : label_dtype) : M unit := λ s,
  Ok (tt, {| heap := heap s; df := df s;
             num_duplicate_vehicle_ids := num_duplicate_vehicle_ids s;
             num_duplicate_tests := num_duplicate_tests s;
             shown := shown s;
             test_result_categories := test_result_categories s;
             test_result_passed_dtype := Some dtype |}).

(** *** DataFrame methods on objects *)

(** [obj[mask]] returns a new DataFrame. *)
Definition df_getitem (l : loc) (mask : frame → list bool) : M loc :=
  fr ← read l ; new_object (boolean_index (mask fr) fr).

(** [obj.sort_values(by=...)] returns a new DataFrame ([inplace] is left
    at its default, [False]). *)
Definition df_sort_values `{Sorter} (by_ : TestRecord → datetime) (l : loc)
  : M loc :=
  fr ← read l ; new_object (sort_values by_ fr).

(** [obj.drop_duplicates(subset=..., keep="first", inplace=...)]: with
    [inplace=True] the receiver is changed and [None] is returned; else a
    new DataFrame is returned. *)
Definition df_drop_duplicates (subset : TestRecord → Z) (inplace : bool)
    (l : loc) : M (option loc) :=
  fr ← read l ;
  if inplace
  then write l (drop_duplicates subset fr) ;; mret None
  else l' ← new_object (drop_duplicates subset fr) ; mret (Some l').

(** ** The statements of the scripts *)

(** [df = df[df.test_type == "NT"]] *)
Definition filter_test_type : M unit :=
  l ← get_df ;
  l' ← df_getitem l (map (λ r, String.eqb (test_type r) "NT")) ;
  set_df l'.

(** [df = df[df.test_class_id == 4]] *)
Definition filter_test_class : M unit :=
  l ← get_df ;
  l' ← df_getitem l (map (λ r, test_class_id r =? 4)) ;
  set_df l'.

(** [num_duplicate_vehicle_ids = len(df) - df.vehicle_id.nunique()]
    [num_duplicate_tests = len(df) - df.test_id.nunique()] *)
Definition count_duplicates : M unit :=
  l ← get_df ;
  fr ← read l ;
  set_counts (Z.of_nat (length fr) - Z.of_nat (nunique vehicle_id fr))
             (Z.of_nat (length fr) - Z.of_nat (nunique test_id fr)).

(** [df.sort_values(by="test_date").drop_duplicates(subset="vehicle_id",
    keep="first", inplace=True)], an expression statement: its value,
    [None], is dropped. *)
Definition dedup_statement `{Sorter} : M unit :=
  l ← get_df ;
  tmp ← df_sort_values test_date l ;
  _ ← df_drop_duplicates vehicle_id true tmp ;
  mret tt.

(** [df["test_result_passed"] = df.test_result.apply(lambda ...)];
    [test_result] is a category column by then. *)
Definition derive_test_result_passed : M unit :=
  l ← get_df ;
  fr ← read l ;
  categories ← get_categories ;
  write l (assign_column set_test_result_passed fr
             (apply passed_of_code (map test_result fr))) ;;
  set_label_dtype (apply_dtype passed_of_code categories (map test_result fr)).

(** [df.test_result_passed.mean()]: a [TypeError] on a categorical
    column. *)
Definition show_pass_rate : M unit :=
  l ← get_df ;
  fr ← read l ;
  col ← lift (column test_result_passed AttributeError fr) ;
  dtype ← get_label_dtype ;
  match dtype with
  | None => raise AttributeError
  | Some dtype_category => raise TypeError
  | Some dtype_number => show (mean col)
  end.

(** [df["vehicle_age"] = df["test_date"]-df["first_use_date"]] *)
Definition derive_vehicle_age : M unit :=
  l ← get_df ;
  fr ← read l ;
  ages ← lift (series_sub (map test_date fr) (map first_use_date fr)) ;
  write l (assign_column set_vehicle_age fr ages).

(** [df["make_model"] = df["make"].astype(str) + " " + df["model"].astype(str)] *)
Definition derive_make_model : M unit :=
  l ← get_df ;
  fr ← read l ;
  write l (assign_column set_make_model fr
             (series_concat (map astype_str (map make fr))
                            (map astype_str (map model fr)))).

(** The whole of a script: the Type Normalizer on the loaded rows, then
    the statements from the one-object state.  The statements left out
    ([describe], the two lookup tables, the tables of duplicated rows,
    the frequency tables and the plot) build other objects and never
    touch [df]. *)
Definition run_script `{DateParser} (body : M unit) (rows : list RawRecord)
  : result state :=
  result_bind (type_normalizer rows) (λ fr,
  match body (initial fr) with
  | Ok (_, s) => Ok s
  | Raised e => Raised e
  end).

Module Main.
(** [main.py], lines 32-66. *)
Definition filter_stage : M unit := filter_test_type.

Definition body `{Sorter} : M unit :=
  filter_stage ;;
  derive_test_result_passed ;;
  show_pass_rate ;;
  count_duplicates ;;
  dedup_statement ;;
  show_pass_rate.

Definition script `{DateParser} `{Sorter} := run_script body.
End Main.

Module Checkpoint.
(** [.ipynb_checkpoints/main-checkpoint.py], lines 42-77. *)
Definition filter_stage : M unit :=
  filter_test_type ;; filter_test_class.

Definition body `{Sorter} : M unit :=
  filter_stage ;;
  count_duplicates ;;
  dedup_statement ;;
  derive_test_result_passed ;;
  show_pass_rate ;;
  derive_vehicle_age ;;
  derive_make_model.

Definition script `{DateParser} `{Sorter} := run_script body.
End Checkpoint.

(** ** Views of a run, used to state the properties *)

(** What line 60 (64 in the checkpoint) leaves in the object it mutates:
    the sorted copy with its duplicates dropped. *)
Definition deduplicated `{Sorter} (fr : frame) : frame :=
  drop_duplicates vehicle_id (sort_values test_date fr).

(** The working table after running [body] from the state in which [df]
    is [fr]. *)
Definition table_after (body : M unit) (fr : frame) : result frame :=
  match body (initial fr) with
  | Ok (_, s) =>
      match working_table s with
      | Some fr' => Ok fr'
      | None => Raised KeyError
      end
  | Raised e => Raised e
  end.

(** The cell [to_datetime] produces when it does not raise. *)
Definition coerced `{DateParser} (c : csv_cell) : datetime :=
  match c with
  | Blank => NaT
  | Text s =>
      match parse_datetime_string s with
      | Some t => Stamp t
      | None => NaT
      end
  end.

(** A cell [to_datetime] accepts under [errors="raise"]. *)
Definition parseable `{DateParser} (c : csv_cell) : bool :=
  match c with
  | Blank => true
  | Text s => bool_decide (is_Some (parse_datetime_string s))
  end.

(** The loaded rows after lines 16-17, when no [test_date] fails: each
    with its two date cells converted. *)
Definition converted `{DateParser} (rows : list RawRecord) : frame :=
  map (λ r, with_dates r (coerced (raw_test_date r))
                         (coerced (raw_first_use_date r))) rows.

(** ** Concrete parser, sort and rows for the examples *)

(** Days from 1970-01-01 to the civil date [y]-[m]-[d]. *)
Definition days_from_civil (y m d : Z) : Z :=
  let y' := if m <=? 2 then y - 1 else y in
  let era := y' / 400 in
  let yoe := y' - era * 400 in
  let doy := (153 * (if 2 <? m then m - 3 else m + 9) + 2) / 5 + d - 1 in
  let doe := yoe * 365 + yoe / 4 - yoe / 100 + doy in
  era * 146097 + doe - 719468.

Definition ns_per_day : Z := 86400 * 1000000000.

(** The timestamp of midnight on a civil date. *)
Definition ymd (y m d : Z) : Z := days_from_civil y m d * ns_per_day.

Definition is_leap (y : Z) : bool :=
  (y mod 4 =? 0) && (negb (y mod 100 =? 0) || (y mod 400 =? 0)).

Definition days_in_month (y m : Z) : Z :=
  if m =? 2 then (if is_leap y then 29 else 28)
  else if (m =? 4) || (m =? 6) || (m =? 9) || (m =? 11) then 30
  else 31.

Definition digit (c : ascii) : option Z :=
  let n := Z.of_nat (nat_of_ascii c) in
  if (48 <=? n) && (n <=? 57) then Some (n - 48) else None.

Fixpoint digits (acc : Z) (cs : list ascii) : option Z :=
  match cs with
  | [] => Some acc
  | c :: cs' =>
      match digit c with
      | Some v => digits (10 * acc + v) cs'
      | None => None
      end
  end.

(** The one text form of the data set, [YYYY-MM-DD]; anything else does
    not parse. *)
Definition parse_ymd (s : string) : option Z :=
  match list_ascii_of_string s with
  | [y1; y2; y3; y4; dash1; m1; m2; dash2; d1; d2] =>
      if Ascii.eqb dash1 "-" && Ascii.eqb dash2 "-" then
        match digits 0 [y1; y2; y3; y4], digits 0 [m1; m2], digits 0 [d1; d2] with
        | Some y, Some m, Some d =>
            if (1 <=? m) && (m <=? 12) && (1 <=? d) && (d <=? days_in_month y m)
            then Some (ymd y m d) else None
        | _, _, _ => None
        end
      else None
  | _ => None
  end.

Definition ymd_parser : DateParser := parse_ymd.

Definition by_le (by_ : TestRecord → datetime) : relation TestRecord :=
  λ a b, datetime_le (by_ a) (by_ b).

#[global] Instance by_le_dec by_ a b : Decision (by_le by_ a b).
Proof. unfold by_le, datetime_le. apply _. Defined.

#[global] Instance by_le_total by_ : Total (by_le by_).
Proof.
  intros a b. unfold by_le, datetime_le.
  destruct (by_ a) as [|x], (by_ b) as [|y]; simpl; auto.
  destruct (Z.leb_spec x y); [auto | right; apply Z.leb_le; lia].
Qed.

#[global] Instance by_le_trans by_ : Transitive (by_le by_).
Proof.
  intros a b c. unfold by_le, datetime_le.
  destruct (by_ a), (by_ b), (by_ c); simpl; try done.
  rewrite !Z.leb_le. lia.
Qed.

(** One sort that fits: merge sort on the key. *)
Definition merge_sorter : Sorter :=
  {| sort_values := λ by_ fr, merge_sort (by_le by_) fr;
     sort_values_perm := λ by_ fr, merge_sort_Permutation (by_le by_) fr;
     sort_values_sorted := λ by_ fr, StronglySorted_merge_sort (by_le by_) fr |}.

(** A class-4 normal test of a petrol Ford Focus; only the columns the
    examples vary are arguments. *)
Definition raw_row (tid vid : Z) (date fud : csv_cell) (type_ res : string) (cls : Z)
  : RawRecord :=
  {| raw_test_id := tid; raw_vehicle_id := vid;
     raw_test_date := date; raw_first_use_date := fud;
     raw_test_type := type_; raw_test_result := Text res;
     raw_test_class_id := cls;
     raw_postcode_area := "B"; raw_make := Text "FORD"; raw_model := Text "FOCUS";
     raw_colour := "BLUE"; raw_fuel_type := "PE" |}.

Definition row (tid vid : Z) (date fud : datetime) (type_ res : string) (cls : Z)
  : TestRecord :=
  {| test_id := tid; vehicle_id := vid;
     test_date := date; first_use_date := fud;
     test_type := type_; test_result := Text res; test_class_id := cls;
     postcode_area := "B"; make := Text "FORD"; model := Text "FOCUS";
     colour := "BLUE"; fuel_type := "PE";
     test_result_passed := None; vehicle_age := None; make_model := None |}.

(** The scenario of the spec: three normal class-4 tests of vehicle 7. *)
Definition vehicle7 : frame :=
  [ row 101 7 (Stamp (ymd 2022 3 1)) (Stamp (ymd 2010 6 1)) "NT" "F" 4;
    row 102 7 (Stamp (ymd 2022 3 15)) (Stamp (ymd 2010 6 1)) "NT" "P" 4;
    row 103 7 (Stamp (ymd 2022 4 1)) (Stamp (ymd 2010 6 1)) "NT" "P" 4 ].

(** A mixed sample: a class-7 van, a retest, a car whose first use date
    is missing, and a car tested twice on one day. *)
Definition fleet : frame :=
  [ row 201 11 (Stamp (ymd 2022 1 10)) (Stamp (ymd 2015 2 1)) "NT" "P" 7;
    row 202 12 (Stamp (ymd 2022 1 11)) (Stamp (ymd 2012 9 1)) "RT" "P" 4;
    row 203 13 (Stamp (ymd 2022 1 12)) NaT "NT" "PRS" 4;
    row 204 14 (Stamp (ymd 2022 1 13)) (Stamp (ymd 2018 3 1)) "NT" "F" 4;
    row 205 14 (Stamp (ymd 2022 1 13)) (Stamp (ymd 2018 3 1)) "NT" "P" 4 ].

(** A row with cells that can be missing. *)
Definition row_cells (tid vid : Z) (date fud : datetime) (res mk mdl : csv_cell)
  : TestRecord :=
  {| test_id := tid; vehicle_id := vid;
     test_date := date; first_use_date := fud;
     test_type := "NT"; test_result := res; test_class_id := 4;
     postcode_area := "B"; make := mk; model := mdl;
     colour := "BLUE"; fuel_type := "PE";
     test_result_passed := None; vehicle_age := None; make_model := None |}.

(** Three result codes, one test without a result, one car without a
    model. *)
Definition untested : frame :=
  [ row_cells 501 41 (Stamp (ymd 2022 2 1)) (Stamp (ymd 2016 5 1))
      (Text "P") (Text "FORD") (Text "KA");
    row_cells 502 42 (Stamp (ymd 2022 2 2)) (Stamp (ymd 2014 5 1))
      Blank (Text "LAND ROVER") (Text "DEFENDER");
    row_cells 503 43 (Stamp (ymd 2022 2 3)) NaT
      (Text "F") (Text "FIAT") Blank;
    row_cells 504 44 (Stamp (ymd 2022 2 4)) (Stamp (ymd 2019 5 1))
      (Text "PRS") Blank (Text "500") ].




(** Loaded rows with three result codes. *)
Definition loaded_three : list RawRecord :=
  [ raw_row 301 21 (Text "2022-03-01") (Text "2010-06-01") "NT" "P" 4;
    raw_row 302 22 (Text "2022-03-02") (Text "unknown") "NT" "F" 4;
    raw_row 303 23 Blank Blank "NT" "PRS" 4 ].

(** Loaded rows with two result codes. *)
Definition loaded_ok : list RawRecord :=
  [ raw_row 301 21 (Text "2022-03-01") (Text "2010-06-01") "NT" "P" 4;
    raw_row 302 22 (Text "2022-03-02") (Text "unknown") "NT" "F" 4;
    raw_row 303 23 Blank Blank "NT" "P" 4 ].

Definition loaded_bad : list RawRecord :=
  [ raw_row 301 21 (Text "2022-03-01") (Text "2010-06-01") "NT" "P" 4;
    raw_row 304 24 (Text "unknown") (Text "2011-01-01") "NT" "F" 4 ].

(** ** The side tables of the scripts

    The statements below bind other names than [df] and do not change
    it; each is modelled as the value it computes from the working
    table.  The frequency tables of [make] and [fuel_type] and the plot
    are left out: the first two depend on the categories of these two
    columns, which this model does not carry. *)

(** The number of rows with a given key. *)
Definition count_key {A K} `{EqDecision K} (subset : A → K) (k : K)
    (rows : list A) : nat :=
  length (filter (λ r, subset r = k) rows).

(** [duplicated(keep=False)]: every row whose key occurs more than once
    is marked. *)
Definition duplicated_all {A K} `{EqDecision K} (subset : A → K)
    (rows : list A) : list bool :=
  map (λ r, bool_decide (2 ≤ count_key subset (subset r) rows)%nat) rows.

(** [Series.unique()]: the distinct values, in order of appearance. *)
Definition unique {K} `{Countable K} (column : list K) : list K :=
  drop_duplicates id column.

(** [sort_values(by=...)] on an integer column, ascending, default
    [kind]: some permutation of the rows that is sorted. *)
Class IdSorter : Type := {
  sort_values_id : (TestRecord → Z) → frame → frame;
  sort_values_id_perm by_ fr : sort_values_id by_ fr ≡ₚ fr;
  sort_values_id_sorted by_ fr :
    StronglySorted (λ a b, by_ a ≤ by_ b) (sort_values_id by_ fr)
}.

(** Line 52 of [main.py], 53 of the checkpoint:
    [df_duplicated_vehicle_ids =
       df[df.vehicle_id.duplicated(keep=False)].sort_values(by="vehicle_id")]. *)
Definition df_duplicated_vehicle_ids `{IdSorter} (fr : frame) : frame :=
  sort_values_id vehicle_id (boolean_index (duplicated_all vehicle_id fr) fr).

(** A row of [groupby("vehicle_id").count()]: the group's key and, per
    column, the number of cells that are not missing.  The columns that
    hold no missing value share one count. *)
Record GroupCount : Type := mkGroupCount {
  group_vehicle_id : Z;
  count_rows : nat;             (* every column without missing cells *)
  count_test_date : nat;
  count_first_use_date : nat;
  count_test_result : nat;      (* and the label of [main.py], NaN where this is missing *)
  count_make : nat;
  count_model : nat
}.

Definition is_missing (c : csv_cell) : bool :=
  match c with Blank => true | Text _ => false end.

Definition is_NaT (d : datetime) : bool :=
  match d with NaT => true | Stamp _ => false end.

(** [groupby("vehicle_id").count()]: one row per key, keys ascending. *)
Definition groupby_vehicle_id_count (fr : frame) : list GroupCount :=
  map (λ k,
         let group := filter (λ r, vehicle_id r = k) fr in
         {| group_vehicle_id := k;
            count_rows := length group;
            count_test_date :=
              length (filter (λ r, is_NaT (test_date r) = false) group);
            count_first_use_date :=
              length (filter (λ r, is_NaT (first_use_date r) = false) group);
            count_test_result :=
              length (filter (λ r, is_missing (test_result r) = false) group);
            count_make :=
              length (filter (λ r, is_missing (make r) = false) group);
            count_model :=
              length (filter (λ r, is_missing (model r) = false) group) |})
      (merge_sort Z.le (elements (list_to_set (map vehicle_id fr) : gset Z))).

(** Line 56 of [main.py], 58 of the checkpoint:
    [df_duplicated_counts = df_duplicated_vehicle_ids.groupby("vehicle_id").count()]. *)
Definition df_duplicated_counts `{IdSorter} (fr : frame) : list GroupCount :=
  groupby_vehicle_id_count (df_duplicated_vehicle_ids fr).

(** A row of the outcome lookup table ([mdr_test_outcome.csv]). *)
Record OutcomeEntry : Type := mkOutcome {
  result_code : string;
  result_description : string
}.

(** Line 37 of [main.py], 25 of the checkpoint:
    [test_result_codes = test_result_details.result_code.unique().tolist()]. *)
Definition test_result_codes (test_result_details : list OutcomeEntry)
  : list string :=
  unique (map result_code test_result_details).

(** The sort inside [value_counts()]: descending by count, default
    [kind]. *)
Class FreqSorter : Type := {
  sort_counts : list (string * nat) → list (string * nat);
  sort_counts_perm freq : sort_counts freq ≡ₚ freq;
  sort_counts_sorted freq :
    StronglySorted (λ a b, (b.2 ≤ a.2)%nat) (sort_counts freq)
}.

(** [Series.value_counts()] on a text column: every value with its
    number of occurrences, most frequent first. *)
Definition value_counts `{FreqSorter} (column : list string)
  : list (string * nat) :=
  sort_counts (map (λ v, (v, count_key id v column)) (unique column)).

Definition sum_nat (l : list nat) : nat := foldr Nat.add 0%nat l.

(** Lines 80 and 92 of the checkpoint:
<<
    df_make_model_freq = df.make_model.value_counts()
    print(df_make_model_freq.iloc[:100].values.sum()/len(df))
>>
    The quotient is a numpy float; on the empty table it is 0/0, which
    numpy evaluates to NaN. *)
Definition df_make_model_freq `{FreqSorter} (fr : frame)
  : result (list (string * nat)) :=
  result_bind (column make_model AttributeError fr) (λ col,
  Ok (value_counts col)).

Definition top100_share `{FreqSorter} (fr : frame) : result fnum :=
  result_bind (df_make_model_freq fr) (λ freq,
  Ok (match fr with
      | [] => NaN
      | _ :: _ =>
          Num (Z.of_nat (sum_nat (map snd (take 100 freq)))
               # Pos.of_nat (length fr))
      end)).

(** The value of the expression of line 92 on the table that lines
    42-77 of the checkpoint leave when run from the state in which [df]
    is [fr].  The plot of lines 89-90, in between, is not modelled. *)
Definition printed_share `{Sorter} `{FreqSorter} (fr : frame) : result fnum :=
  result_bind (table_after Checkpoint.body fr) top100_share.

(** The columns of a row that come from the load. *)
Definition loaded_columns (r : TestRecord) :=
  (test_id r, vehicle_id r, test_date r, first_use_date r, test_type r,
   test_result r, test_class_id r, postcode_area r, make r, model r,
   colour r, fuel_type r).

(** The label a row gets: the lambda's value on its result code, NaN
    when there is no code. *)
Definition label_of (r : TestRecord) : label_cell :=
  match test_result r with
  | Blank => label_NaN
  | Text result_code => label (if String.eqb result_code "P" then 1 else 0)
  end.

(** A row whose two dates are too far apart for an [int64] number of
    nanoseconds. *)
Definition age_overflows (r : TestRecord) : bool :=
  match test_date r, first_use_date r with
  | Stamp a, Stamp b => (a - b <? int64_min) || (int64_max <? a - b)
  | _, _ => false
  end.

(** The age of a row whose dates are not too far apart. *)
Definition age_of (r : TestRecord) : timedelta :=
  match test_date r, first_use_date r with
  | Stamp a, Stamp b => if a - b =? int64_min then NaTd else Delta (a - b)
  | _, _ => NaTd
  end.

(** A row with the label of line 40 of [main.py], cell by cell. *)
Definition with_label (r : TestRecord) : TestRecord :=
  {| test_id := test_id r; vehicle_id := vehicle_id r;
     test_date := test_date r; first_use_date := first_use_date r;
     test_type := test_type r; test_result := test_result r;
     test_class_id := test_class_id r; postcode_area := postcode_area r;
     make := make r; model := model r; colour := colour r;
     fuel_type := fuel_type r;
     test_result_passed := Some (label_of r);
     vehicle_age := vehicle_age r; make_model := make_model r |}.

(** A row with the three columns the checkpoint derives (lines 69, 74
    and 77), cell by cell. *)
Definition with_features (r : TestRecord) : TestRecord :=
  {| test_id := test_id r; vehicle_id := vehicle_id r;
     test_date := test_date r; first_use_date := first_use_date r;
     test_type := test_type r; test_result := test_result r;
     test_class_id := test_class_id r; postcode_area := postcode_area r;
     make := make r; model := model r; colour := colour r;
     fuel_type := fuel_type r;
     test_result_passed := Some (label_of r);
     vehicle_age := Some (age_of r);
     make_model := Some (astype_str (make r) ++ " " ++ astype_str (model r))%string |}.

(** A text without a space character. *)
Definition no_space (s : string) : bool :=
  forallb (λ c, negb (Ascii.eqb c " ")) (list_ascii_of_string s).

(** Concrete sorts for the examples. *)
Definition id_le (by_ : TestRecord → Z) : relation TestRecord :=
  λ a b, by_ a ≤ by_ b.

#[global] Instance id_le_dec by_ a b : Decision (id_le by_ a b).
Proof. unfold id_le. apply _. Defined.

#[global] Instance id_le_total by_ : Total (id_le by_).
Proof. intros a b. unfold id_le. lia. Qed.

#[global] Instance id_le_trans by_ : Transitive (id_le by_).
Proof. intros a b c. unfold id_le. lia. Qed.

Definition merge_id_sorter : IdSorter :=
  {| sort_values_id := λ by_ fr, merge_sort (id_le by_) fr;
     sort_values_id_perm := λ by_ fr, merge_sort_Permutation (id_le by_) fr;
     sort_values_id_sorted := λ by_ fr, StronglySorted_merge_sort (id_le by_) fr |}.

Definition freq_ge : relation (string * nat) := λ a b, (b.2 ≤ a.2)%nat.

#[global] Instance freq_ge_dec a b : Decision (freq_ge a b).
Proof. unfold freq_ge. apply _. Defined.

#[global] Instance freq_ge_total : Total freq_ge.
Proof. intros a b. unfold freq_ge. lia. Qed.

#[global] Instance freq_ge_trans : Transitive freq_ge.
Proof. intros a b c. unfold freq_ge. lia. Qed.

Definition merge_freq_sorter : FreqSorter :=
  {| sort_counts := λ freq, merge_sort freq_ge freq;
     sort_counts_perm := λ freq, merge_sort_Permutation freq_ge freq;
     sort_counts_sorted := λ freq, StronglySorted_merge_sort freq_ge freq |}.

(** * Properties *)

(** ** Boolean indexing *)

Lemma boolean_index_filter {A} (f : A → bool) (P : A → Prop)
    `{∀ x, Decision (P x)} (rows : list A) :
  (∀ x, f x = true ↔ P x) →
  boolean_index (map f rows) rows = filter P rows.
Proof.
  intros Hf. induction rows as [|r rows IH]; [done|].
  cbn [map boolean_index]. rewrite IH, filter_cons.
  destruct (f r) eqn:E, (decide (P r)) as [HP|HP]; try done.
  - destruct HP. by apply Hf.
  - apply Hf in HP. congruence.
Qed.

Lemma boolean_index_length_split {A} (mask : list bool) (rows : list A) :
  length mask = length rows →
  (length (boolean_index (map negb mask) rows)
   + length (boolean_index mask rows))%nat = length rows.
Proof.
  revert rows. induction mask as [|b mask IH]; intros [|r rows] Hlen;
    simplify_eq/=; [done|].
  specialize (IH rows ltac:(done)). destruct b; simpl; lia.
Qed.

(** ** [duplicated] and [drop_duplicates] *)

Section duplicates_facts.
Context {A K : Type} `{Countable K}.
Variable subset : A → K.

Lemma keep_unseen_cons seen r rows :
  keep_unseen subset seen (r :: rows) =
    if decide (subset r ∈ seen)
    then keep_unseen subset ({[subset r]} ∪ seen) rows
    else r :: keep_unseen subset ({[subset r]} ∪ seen) rows.
Proof.
  unfold keep_unseen. cbn [duplicated_from map boolean_index].
  destruct (decide (subset r ∈ seen)) as [Hin|Hin].
  - by rewrite bool_decide_eq_true_2.
  - by rewrite bool_decide_eq_false_2.
Qed.

Lemma drop_duplicates_keep_unseen rows :
  drop_duplicates subset rows = keep_unseen subset ∅ rows.
Proof. done. Qed.

Lemma duplicated_from_length seen rows :
  length (duplicated_from subset seen rows) = length rows.
Proof.
  revert seen. induction rows as [|r rows IH]; intros seen; simpl; [done|].
  by rewrite IH.
Qed.

Lemma elem_of_keep_unseen seen rows x :
  x ∈ keep_unseen subset seen rows → x ∈ rows ∧ subset x ∉ seen.
Proof.
  revert seen. induction rows as [|r rows IH]; intros seen.
  - unfold keep_unseen; simpl. intros Hx. by apply elem_of_nil in Hx.
  - rewrite keep_unseen_cons. case_decide as Hr.
    + intros Hx. apply IH in Hx as [? ?]. split; [by right | set_solver].
    + intros Hx. apply elem_of_cons in Hx as [->|Hx].
      * split; [by left | done].
      * apply IH in Hx as [? ?]. split; [by right | set_solver].
Qed.

(** Every key not yet seen keeps a row. *)
Lemma keep_unseen_covers seen rows y :
  y ∈ rows → subset y ∉ seen →
  ∃ x, x ∈ keep_unseen subset seen rows ∧ subset x = subset y.
Proof.
  revert seen. induction rows as [|r rows IH]; intros seen Hy Hseen.
  - by apply elem_of_nil in Hy.
  - rewrite keep_unseen_cons. apply elem_of_cons in Hy as [->|Hy].
    + rewrite decide_False by done. exists r. split; [by left | done].
    + destruct (decide (subset y = subset r)) as [Heq|Hne].
      * rewrite Heq in Hseen. rewrite decide_False by done.
        exists r. split; [by left | done].
      * destruct (IH ({[subset r]} ∪ seen) Hy) as (x & Hx & Hk); [set_solver|].
        exists x. split; [|done]. case_decide; [done | by right].
Qed.

Lemma keep_unseen_NoDup seen rows :
  NoDup (map subset (keep_unseen subset seen rows)).
Proof.
  revert seen. induction rows as [|r rows IH]; intros seen.
  - unfold keep_unseen; simpl. constructor.
  - rewrite keep_unseen_cons. case_decide as Hr; [apply IH|].
    cbn [map]. constructor; [|apply IH].
    intros Hin. apply list_elem_of_fmap_1 in Hin as (x & Hk & Hx).
    apply elem_of_keep_unseen in Hx as [_ Hx]. set_solver.
Qed.

Lemma keep_unseen_length seen rows :
  length (keep_unseen subset seen rows)
  = size ((list_to_set (map subset rows) : gset K) ∖ seen).
Proof.
  revert seen. induction rows as [|r rows IH]; intros seen.
  - unfold keep_unseen; simpl.
    replace ((∅ : gset K) ∖ seen) with (∅ : gset K) by set_solver.
    by rewrite size_empty.
  - rewrite keep_unseen_cons. cbn [map list_to_set].
    case_decide as Hr.
    + rewrite IH. f_equal. set_solver.
    + cbn [length]. rewrite IH.
      replace (({[subset r]} ∪ list_to_set (map subset rows)) ∖ seen)
        with ({[subset r]}
              ∪ (list_to_set (map subset rows) : gset K) ∖ ({[subset r]} ∪ seen)).
      * rewrite (size_union (C:=gset K) {[subset r]}) by set_solver.
        by rewrite size_singleton.
      * apply set_eq. intros k. rewrite !elem_of_union, !elem_of_difference,
          !elem_of_union, !elem_of_singleton.
        destruct (decide (k = subset r)) as [->|]; naive_solver.
Qed.

(** A table whose keys are already distinct is left as it is. *)
Lemma keep_unseen_id seen rows :
  NoDup (map subset rows) →
  (∀ x, x ∈ rows → subset x ∉ seen) →
  keep_unseen subset seen rows = rows.
Proof.
  revert seen. induction rows as [|r rows IH]; intros seen Hnd Hseen; [done|].
  rewrite keep_unseen_cons. cbn [map] in Hnd. apply NoDup_cons in Hnd as [Hr Hnd].
  rewrite decide_False by (apply Hseen; by left).
  f_equal. apply IH; [done|]. intros x Hx.
  assert (subset x ≠ subset r).
  { intros Heq. apply Hr. rewrite <- Heq. by apply (list_elem_of_fmap_2 subset). }
  assert (subset x ∉ seen) by (apply Hseen; by right).
  set_solver.
Qed.

Lemma drop_duplicates_NoDup rows :
  NoDup (map subset (drop_duplicates subset rows)).
Proof. apply keep_unseen_NoDup. Qed.

Lemma drop_duplicates_length rows :
  length (drop_duplicates subset rows) = nunique subset rows.
Proof.
  rewrite drop_duplicates_keep_unseen, keep_unseen_length. unfold nunique.
  f_equal. set_solver.
Qed.

Lemma drop_duplicates_count rows :
  (length (drop_duplicates subset rows) + length (discarded subset rows))%nat
  = length rows.
Proof.
  unfold drop_duplicates, discarded. apply boolean_index_length_split.
  apply duplicated_from_length.
Qed.

Lemma drop_duplicates_id rows :
  NoDup (map subset rows) → drop_duplicates subset rows = rows.
Proof. intros Hnd. apply keep_unseen_id; [done | set_solver]. Qed.


(** On a table sorted by [by_], the row kept for a key is one that is
    least by [by_] among the rows with that key. *)
Lemma keep_unseen_least (by_ : A → datetime) seen rows x y :
  StronglySorted (λ a b, datetime_le (by_ a) (by_ b)) rows →
  x ∈ keep_unseen subset seen rows → y ∈ rows → subset y = subset x →
  datetime_le (by_ x) (by_ y).
Proof.
  intros Hsorted. revert seen.
  induction Hsorted as [|r rows Hs IH Hall]; intros seen Hx Hy Hk.
  - by apply elem_of_nil in Hy.
  - rewrite Forall_forall in Hall. rewrite keep_unseen_cons in Hx.
    assert (Hlater : ∀ z, z ∈ keep_unseen subset ({[subset r]} ∪ seen) rows →
                          subset z ≠ subset r).
    { intros z [_ Hz]%elem_of_keep_unseen. set_solver. }
    case_decide as Hr.
    + apply elem_of_cons in Hy as [->|Hy]; [by destruct (Hlater x Hx)|].
      by eapply IH.
    + apply elem_of_cons in Hx as [->|Hx].
      * apply elem_of_cons in Hy as [->|Hy].
        -- unfold datetime_le. destruct (by_ r); simpl; [done|].
           apply Z.leb_refl.
        -- by apply Hall.
      * apply elem_of_cons in Hy as [->|Hy];
          [by destruct (Hlater x Hx)|].
        by eapply IH.
Qed.
End duplicates_facts.

(** ** The statements, one by one *)

Ltac run_stmt Hwt :=
  cbv [filter_test_type filter_test_class count_duplicates
       derive_test_result_passed derive_vehicle_age derive_make_model
       show_pass_rate dedup_statement df_getitem df_sort_values
       df_drop_duplicates get_df set_df read write new_object set_counts
       get_categories get_label_dtype set_label_dtype raise
       show lift mbind M_bind mret M_ret];
  cbn [heap df shown num_duplicate_vehicle_ids num_duplicate_tests set_heap
       test_result_categories test_result_passed_dtype];
  rewrite ?Hwt;
  cbn [heap df shown num_duplicate_vehicle_ids num_duplicate_tests set_heap
       test_result_categories test_result_passed_dtype].

(** The location of a new object is not that of an object in use. *)
Lemma fresh_not_allocated (h : gmap loc frame) l fr :
  h !! l = Some fr → l ≠ fresh (dom h).
Proof.
  intros Hl Heq. apply (is_fresh (dom h)). rewrite <- Heq.
  apply elem_of_dom. by exists fr.
Qed.

Lemma filter_test_type_spec s fr :
  working_table s = Some fr →
  ∃ s', filter_test_type s = Ok (tt, s')
        ∧ working_table s' = Some (filter (λ r, test_type r = "NT") fr)
        ∧ shown s' = shown s.
Proof.
  unfold working_table. intros Hwt. eexists. split; [|split].
  - run_stmt Hwt. reflexivity.
  - cbn [heap df set_heap]. rewrite lookup_insert_eq. f_equal.
    apply boolean_index_filter. intros r. apply String.eqb_eq.
  - done.
Qed.

Lemma filter_test_class_spec s fr :
  working_table s = Some fr →
  ∃ s', filter_test_class s = Ok (tt, s')
        ∧ working_table s' = Some (filter (λ r, test_class_id r = 4) fr)
        ∧ shown s' = shown s.
Proof.
  unfold working_table. intros Hwt. eexists. split; [|split].
  - run_stmt Hwt. reflexivity.
  - cbn [heap df set_heap]. rewrite lookup_insert_eq. f_equal.
    apply boolean_index_filter. intros r. apply Z.eqb_eq.
  - done.
Qed.

Lemma count_duplicates_spec s fr :
  working_table s = Some fr →
  ∃ s', count_duplicates s = Ok (tt, s')
        ∧ working_table s' = Some fr
        ∧ shown s' = shown s
        ∧ num_duplicate_vehicle_ids s'
          = Some (Z.of_nat (length fr) - Z.of_nat (nunique vehicle_id fr)).
Proof.
  unfold working_table. intros Hwt. eexists. split; [|split; [|split]].
  - run_stmt Hwt. reflexivity.
  - done.
  - done.
  - done.
Qed.

(** The deduplication statement: a new object receives the sorted copy
    and is then stripped of its duplicates; nothing else changes. *)
Lemma dedup_statement_spec `{Sorter} s fr :
  working_table s = Some fr →
  dedup_statement s
  = Ok (tt, set_heap (<[fresh (dom (heap s)) := deduplicated fr]> (heap s)) s).
Proof.
  unfold working_table. intros Hwt. run_stmt Hwt.
  rewrite lookup_insert_eq. cbn [heap set_heap].
  by rewrite insert_insert_eq.
Qed.

Lemma dedup_statement_frame `{Sorter} s fr :
  working_table s = Some fr →
  ∃ s', dedup_statement s = Ok (tt, s')
        ∧ working_table s' = Some fr
        ∧ shown s' = shown s
        ∧ num_duplicate_vehicle_ids s' = num_duplicate_vehicle_ids s.
Proof.
  intros Hwt. eexists. split; [by apply dedup_statement_spec|].
  split; [|done]. unfold working_table in *. cbn [heap df set_heap].
  rewrite lookup_insert_ne; [done|].
  apply not_eq_sym. by eapply fresh_not_allocated.
Qed.

(** ** Column assignment *)

Lemma assign_column_map {V} (set : TestRecord → V → TestRecord)
    (f : TestRecord → V) (fr : frame) :
  assign_column set fr (map f fr) = map (λ r, set r (f r)) fr.
Proof. induction fr as [|r fr IH]; [done|]. simpl. by rewrite IH. Qed.

Lemma series_concat_map {A} (f g : A → string) (l : list A) :
  series_concat (map f l) (map g l) = map (λ r, (f r ++ " " ++ g r)%string) l.
Proof. induction l as [|r l IH]; [done|]. simpl. by rewrite IH. Qed.

Lemma lookup_map {A B} (f : A → B) (l : list A) i :
  map f l !! i = f <$> l !! i.
Proof. apply (list_lookup_fmap f). Qed.

Lemma passed_of_code_1 code : passed_of_code code = 1 ↔ code = "P".
Proof.
  unfold passed_of_code. destruct (String.eqb_spec code "P"); split; try done.
Qed.

Lemma passed_of_code_0 code : code ≠ "P" → passed_of_code code = 0.
Proof. unfold passed_of_code. by destruct (String.eqb_spec code "P"). Qed.

Lemma passed_of_code_range code : 0 ≤ passed_of_code code ≤ 1.
Proof. unfold passed_of_code. destruct (String.eqb code "P"); lia. Qed.


(** What [apply] and the assignment of line 40 write. *)
Lemma assign_label (fr : frame) :
  assign_column set_test_result_passed fr
    (apply passed_of_code (map test_result fr))
  = map with_label fr.
Proof.
  unfold apply. rewrite map_map.
  rewrite (assign_column_map set_test_result_passed
             (λ r, match test_result r with
                   | Blank => label_NaN
                   | Text category => label (passed_of_code category)
                   end)).
  apply map_ext. intros r. unfold with_label, label_of, set_test_result_passed.
  by destruct (test_result r).
Qed.

Lemma datetime_sub_row (r : TestRecord) :
  datetime_sub (test_date r) (first_use_date r)
  = if age_overflows r then Raised OverflowError else Ok (age_of r).
Proof.
  unfold datetime_sub, age_overflows, age_of.
  destruct (test_date r) as [|a], (first_use_date r) as [|b]; try done.
  destruct ((a - b <? int64_min) || (int64_max <? a - b)); [done|].
  by destruct (a - b =? int64_min).
Qed.

(** The subtraction of line 74 raises as soon as one row overflows. *)
Lemma series_sub_rows (fr : frame) :
  series_sub (map test_date fr) (map first_use_date fr)
  = if existsb age_overflows fr then Raised OverflowError
    else Ok (map age_of fr).
Proof.
  induction fr as [|r fr IH]; [done|].
  cbn [map series_sub existsb]. rewrite datetime_sub_row.
  destruct (age_overflows r); [done|]. cbn [result_bind orb]. rewrite IH.
  by destruct (existsb age_overflows fr).
Qed.

(** The statements that neither read nor write the column metadata. *)
Lemma filter_test_type_keeps s s' :
  filter_test_type s = Ok (tt, s') →
  test_result_categories s' = test_result_categories s
  ∧ test_result_passed_dtype s' = test_result_passed_dtype s
  ∧ num_duplicate_vehicle_ids s' = num_duplicate_vehicle_ids s.
Proof.
  destruct (heap s !! df s) as [fr|] eqn:E; run_stmt E; [|done].
  by intros [= <-].
Qed.

Lemma filter_test_class_keeps s s' :
  filter_test_class s = Ok (tt, s') →
  test_result_categories s' = test_result_categories s
  ∧ test_result_passed_dtype s' = test_result_passed_dtype s
  ∧ num_duplicate_vehicle_ids s' = num_duplicate_vehicle_ids s.
Proof.
  destruct (heap s !! df s) as [fr|] eqn:E; run_stmt E; [|done].
  by intros [= <-].
Qed.

Lemma count_duplicates_keeps s s' :
  count_duplicates s = Ok (tt, s') →
  test_result_categories s' = test_result_categories s
  ∧ test_result_passed_dtype s' = test_result_passed_dtype s.
Proof.
  destruct (heap s !! df s) as [fr|] eqn:E; run_stmt E; [|done].
  by intros [= <-].
Qed.

Lemma dedup_statement_keeps `{Sorter} s s' :
  dedup_statement s = Ok (tt, s') →
  test_result_categories s' = test_result_categories s
  ∧ test_result_passed_dtype s' = test_result_passed_dtype s.
Proof.
  destruct (heap s !! df s) as [fr|] eqn:E.
  - rewrite (dedup_statement_spec s fr E). by intros [= <-].
  - run_stmt E. done.
Qed.

Lemma derive_test_result_passed_spec s fr :
  working_table s = Some fr →
  ∃ s', derive_test_result_passed s = Ok (tt, s')
        ∧ working_table s' = Some (map with_label fr)
        ∧ shown s' = shown s
        ∧ test_result_passed_dtype s'
          = Some (apply_dtype passed_of_code (test_result_categories s)
                    (map test_result fr))
        ∧ num_duplicate_vehicle_ids s' = num_duplicate_vehicle_ids s
        ∧ test_result_categories s' = test_result_categories s.
Proof.
  unfold working_table. intros Hwt. eexists. split; [|split].
  - run_stmt Hwt. reflexivity.
  - cbn [heap df set_heap]. rewrite lookup_insert_eq. f_equal.
    apply assign_label.
  - done.
Qed.

Lemma derive_vehicle_age_raises s fr :
  working_table s = Some fr → existsb age_overflows fr = true →
  derive_vehicle_age s = Raised OverflowError.
Proof.
  unfold working_table. intros Hwt Hov. run_stmt Hwt.
  by rewrite series_sub_rows, Hov.
Qed.

Lemma derive_vehicle_age_spec s fr :
  working_table s = Some fr → existsb age_overflows fr = false →
  ∃ s', derive_vehicle_age s = Ok (tt, s')
        ∧ working_table s'
          = Some (map (λ r, set_vehicle_age r (age_of r)) fr)
        ∧ shown s' = shown s
        ∧ num_duplicate_vehicle_ids s' = num_duplicate_vehicle_ids s.
Proof.
  unfold working_table. intros Hwt Hov. eexists. split; [|split].
  - run_stmt Hwt. rewrite series_sub_rows, Hov. reflexivity.
  - cbn [heap df set_heap]. rewrite lookup_insert_eq. f_equal.
    apply (assign_column_map set_vehicle_age).
  - done.
Qed.

Lemma derive_make_model_spec s fr :
  working_table s = Some fr →
  ∃ s', derive_make_model s = Ok (tt, s')
        ∧ working_table s'
          = Some (map (λ r, set_make_model r
                     (astype_str (make r) ++ " " ++ astype_str (model r))%string) fr)
        ∧ shown s' = shown s
        ∧ num_duplicate_vehicle_ids s' = num_duplicate_vehicle_ids s.
Proof.
  unfold working_table. intros Hwt. eexists. split; [|split].
  - run_stmt Hwt. reflexivity.
  - cbn [heap df set_heap]. rewrite lookup_insert_eq. f_equal.
    rewrite !map_map.
    rewrite (series_concat_map (λ r, astype_str (make r))
               (λ r, astype_str (model r))).
    apply (assign_column_map set_make_model).
  - done.
Qed.

(** ** The mean of the label column *)

Lemma sum_Z_range (col : list Z) :
  Forall (λ v, 0 ≤ v ≤ 1) col → 0 ≤ sum_Z col ≤ Z.of_nat (length col).
Proof.
  induction 1 as [|v col Hv _ IH]; simpl; [lia|].
  rewrite Nat2Z.inj_succ. lia.
Qed.

Lemma ratio_unit_interval (t : Z) (n : nat) :
  0 ≤ t ≤ Z.of_nat n → n ≠ 0%nat →
  in_unit_interval (Num (t # Pos.of_nat n)) = true.
Proof.
  intros Ht Hn. unfold in_unit_interval, fnum_leb.
  assert (Hp : Z.pos (Pos.of_nat n) = Z.of_nat n).
  { destruct n as [|n]; [done|]. rewrite <- Pos.of_nat_succ.
    by rewrite Zpos_P_of_succ_nat, Nat2Z.inj_succ. }
  assert (Hlo : Qle_bool 0 (t # Pos.of_nat n) = true).
  { apply Qle_bool_iff. unfold Qle. simpl. lia. }
  assert (Hhi : Qle_bool (t # Pos.of_nat n) 1 = true).
  { apply Qle_bool_iff. unfold Qle. simpl. lia. }
  by rewrite Hlo, Hhi.
Qed.

(** The numbers of the label column: the lambda's values on the result
    codes that are there. *)
Lemma dropna_labels (fr : frame) :
  dropna (map label_of fr) = map passed_of_code (texts (map test_result fr)).
Proof.
  induction fr as [|r fr IH]; [done|]. cbn [map]. unfold label_of at 1.
  destruct (test_result r) as [|code]; cbn [dropna texts map]; by rewrite IH.
Qed.

Lemma texts_nil (fr : frame) :
  texts (map test_result fr) = [] ↔ ∀ r, r ∈ fr → test_result r = Blank.
Proof.
  induction fr as [|r fr IH]; [split; [by intros _ ? ?%elem_of_nil | done]|].
  cbn [map texts]. destruct (test_result r) as [|code] eqn:E.
  - rewrite IH. split.
    + intros Hall r' [->|?]%elem_of_cons; [done | by apply Hall].
    + intros Hall r' Hr'. apply Hall. by right.
  - split; [done|]. intros Hall. specialize (Hall r ltac:(by left)). congruence.
Qed.

Lemma sum_passed_of_code (codes : list string) :
  sum_Z (map passed_of_code codes)
  = Z.of_nat (length (filter (λ code, code = "P") codes)).
Proof.
  induction codes as [|code codes IH]; [done|].
  cbn [map sum_Z foldr]. fold (sum_Z (map passed_of_code codes)).
  rewrite IH, filter_cons. unfold passed_of_code.
  destruct (String.eqb_spec code "P") as [Hp|Hp].
  - rewrite decide_True by done. cbn [length]. lia.
  - rewrite decide_False by done. lia.
Qed.

(** The mean of the label column: the share of "P" among the result
    codes that are there, NaN when there is none. *)
Lemma mean_labels (fr : frame) :
  mean (map label_of fr)
  = match texts (map test_result fr) with
    | [] => NaN
    | _ :: _ =>
        Num (Z.of_nat (length (filter (λ code, code = "P")
                                 (texts (map test_result fr))))
             # Pos.of_nat (length (texts (map test_result fr))))
    end.
Proof.
  unfold mean. rewrite dropna_labels.
  destruct (texts (map test_result fr)) as [|code codes]; [done|].
  cbn [map]. change (passed_of_code code :: map passed_of_code codes)
    with (map passed_of_code (code :: codes)).
  by rewrite sum_passed_of_code, length_map.
Qed.

Lemma elem_of_texts (fr : frame) (code : string) :
  code ∈ texts (map test_result fr)
  ↔ ∃ r, r ∈ fr ∧ test_result r = Text code.
Proof.
  induction fr as [|r fr IH].
  - split; [by intros ?%elem_of_nil | by intros (? & ?%elem_of_nil & _)].
  - cbn [map texts]. destruct (test_result r) as [|c] eqn:E.
    + rewrite IH. split.
      * intros (r' & Hr' & Hc). exists r'. split; [by right | done].
      * intros (r' & [->|Hr']%elem_of_cons & Hc); [congruence|]. eauto.
    + rewrite elem_of_cons, IH. split.
      * intros [->|(r' & Hr' & Hc)].
        -- exists r. split; [by left | done].
        -- exists r'. split; [by right | done].
      * intros (r' & [->|Hr']%elem_of_cons & Hc).
        -- left. congruence.
        -- right. eauto.
Qed.

Lemma mean_labels_unit_interval (fr : frame) :
  in_unit_interval (mean (map label_of fr)) = true
  ↔ ∃ r code, r ∈ fr ∧ test_result r = Text code.
Proof.
  rewrite mean_labels. split.
  - destruct (texts (map test_result fr)) as [|code codes] eqn:E; [done|].
    intros _.
    destruct (proj1 (elem_of_texts fr code)) as (r & Hr & Hcode).
    { rewrite E. by left. }
    eauto.
  - intros (r & code & Hr & Hcode).
    destruct (texts (map test_result fr)) as [|c codes] eqn:E.
    + pose proof (proj1 (texts_nil fr) E r Hr). congruence.
    + apply ratio_unit_interval; [|done].
      pose proof (length_filter (λ code, code = "P") (c :: codes)). lia.
Qed.


Lemma column_test_result_passed (fr : frame) :
  column test_result_passed AttributeError (map with_label fr)
  = Ok (map label_of fr).
Proof.
  unfold column. induction fr as [|r fr IH]; [done|].
  cbn [map result_mapM]. rewrite IH. done.
Qed.

Lemma show_pass_rate_raises s fr :
  working_table s = Some (map with_label fr) →
  test_result_passed_dtype s = Some dtype_category →
  show_pass_rate s = Raised TypeError.
Proof.
  unfold working_table. intros Hwt Hdt. run_stmt Hwt.
  by rewrite column_test_result_passed, Hdt.
Qed.

Lemma show_pass_rate_spec s fr :
  working_table s = Some (map with_label fr) →
  test_result_passed_dtype s = Some dtype_number →
  ∃ s', show_pass_rate s = Ok (tt, s')
        ∧ working_table s' = working_table s
        ∧ shown s' = mean (map label_of fr) :: shown s
        ∧ num_duplicate_vehicle_ids s' = num_duplicate_vehicle_ids s
        ∧ test_result_passed_dtype s' = test_result_passed_dtype s
        ∧ test_result_categories s' = test_result_categories s.
Proof.
  unfold working_table. intros Hwt Hdt. eexists. split.
  - run_stmt Hwt. rewrite column_test_result_passed, Hdt. reflexivity.
  - done.
Qed.

(** When the label column is a categorical. *)
Lemma apply_dtype_category (categories : gset string) (fr : frame) :
  apply_dtype passed_of_code categories (map test_result fr) = dtype_category
  ↔ fr = [] ∨ NoDup (map passed_of_code (elements categories)).
Proof.
  unfold apply_dtype. destruct fr as [|r fr]; cbn [map]; [by split; [left|]|].
  destruct (decide (NoDup (map passed_of_code (elements categories))))
    as [Hnd|Hnd].
  - rewrite bool_decide_eq_true_2 by done. split; [by right | done].
  - rewrite bool_decide_eq_false_2 by done. split; [done|]. by intros [?|?].
Qed.

(** ** The Type Normalizer *)

Lemma forallb_map_compose {A B} (f : B → bool) (g : A → B) (l : list A) :
  forallb f (map g l) = forallb (λ x, f (g x)) l.
Proof. induction l as [|x l IH]; [done|]. simpl. by rewrite IH. Qed.

Section to_datetime_facts.
Context `{DateParser}.

Lemma convert_cell_coerce c : convert_cell errors_coerce c = Ok (coerced c).
Proof. destruct c as [|s]; simpl; [done|]. by destruct (parse_datetime_string s). Qed.

Lemma convert_cell_raise c :
  convert_cell errors_raise c
  = if parseable c then Ok (coerced c) else Raised ValueError.
Proof.
  destruct c as [|s]; simpl; [done|].
  destruct (parse_datetime_string s) as [t|] eqn:E.
  - by rewrite bool_decide_eq_true_2.
  - rewrite bool_decide_eq_false_2; [done|]. by intros [? ?].
Qed.

(** With [errors="coerce"] the conversion never raises. *)
Lemma to_datetime_coerce column_ :
  to_datetime errors_coerce column_ = Ok (map coerced column_).
Proof.
  unfold to_datetime. induction column_ as [|c column_ IH]; [done|].
  cbn [result_mapM map]. by rewrite convert_cell_coerce, IH.
Qed.

(** With the default [errors="raise"] it raises as soon as one cell
    does not parse. *)
Lemma to_datetime_raise column_ :
  to_datetime errors_raise column_
  = if forallb parseable column_ then Ok (map coerced column_)
    else Raised ValueError.
Proof.
  unfold to_datetime. induction column_ as [|c column_ IH]; [done|].
  cbn [result_mapM map forallb]. rewrite convert_cell_raise.
  destruct (parseable c); [|done]. cbn [result_bind andb]. rewrite IH.
  by destruct (forallb parseable column_).
Qed.

Lemma assign_dates_map (f g : RawRecord → datetime) rows :
  assign_dates rows (map f rows) (map g rows)
  = map (λ r, with_dates r (f r) (g r)) rows.
Proof. induction rows as [|r rows IH]; [done|]. simpl. by rewrite IH. Qed.
End to_datetime_facts.

(** ** The sorted, deduplicated copy *)

Section deduplicated_facts.
Context `{Sorter}.

Lemma elem_of_sort_values by_ fr x : x ∈ sort_values by_ fr ↔ x ∈ fr.
Proof. by rewrite (sort_values_perm by_ fr). Qed.

Lemma length_sort_values by_ fr : length (sort_values by_ fr) = length fr.
Proof. apply Permutation_length, sort_values_perm. Qed.

Lemma nunique_sort_values by_ fr :
  nunique vehicle_id (sort_values by_ fr) = nunique vehicle_id fr.
Proof.
  unfold nunique. f_equal. apply list_to_set_perm_L.
  apply (fmap_Permutation vehicle_id), sort_values_perm.
Qed.

Lemma deduplicated_NoDup fr : NoDup (map vehicle_id (deduplicated fr)).
Proof. apply drop_duplicates_NoDup. Qed.

Lemma deduplicated_length fr :
  length (deduplicated fr) = nunique vehicle_id fr.
Proof.
  unfold deduplicated. by rewrite drop_duplicates_length, nunique_sort_values.
Qed.

Lemma elem_of_deduplicated fr x : x ∈ deduplicated fr → x ∈ fr.
Proof.
  unfold deduplicated. rewrite drop_duplicates_keep_unseen.
  intros [Hx _]%elem_of_keep_unseen. by apply elem_of_sort_values in Hx.
Qed.

(** One row is kept for every vehicle of the table. *)
Lemma deduplicated_covers fr y :
  y ∈ fr → ∃ x, x ∈ deduplicated fr ∧ vehicle_id x = vehicle_id y.
Proof.
  intros Hy. unfold deduplicated. rewrite drop_duplicates_keep_unseen.
  apply keep_unseen_covers; [by apply elem_of_sort_values | set_solver].
Qed.

(** The row kept for a vehicle has the earliest [test_date] of the
    vehicle's rows. *)
Lemma deduplicated_earliest fr x y :
  x ∈ deduplicated fr → y ∈ fr → vehicle_id y = vehicle_id x →
  datetime_le (test_date x) (test_date y).
Proof.
  unfold deduplicated. rewrite drop_duplicates_keep_unseen. intros Hx Hy Hk.
  eapply (keep_unseen_least vehicle_id test_date); [|exact Hx| |exact Hk].
  - apply sort_values_sorted.
  - by apply elem_of_sort_values.
Qed.

(** The rows the copy loses are as many as the count of line 44 says. *)
Lemma deduplicated_removed fr :
  Z.of_nat (length fr) - Z.of_nat (nunique vehicle_id fr)
  = Z.of_nat (length (discarded vehicle_id (sort_values test_date fr))).
Proof.
  pose proof (drop_duplicates_count vehicle_id (sort_values test_date fr)) as Hc.
  rewrite length_sort_values in Hc. fold (deduplicated fr) in Hc.
  rewrite deduplicated_length in Hc. lia.
Qed.


End deduplicated_facts.


(** ** Sorting and dropping a second time *)



Lemma NoDup_map_eq {A B} (f : A → B) (l : list A) (x y : A) :
  NoDup (map f l) → x ∈ l → y ∈ l → f x = f y → x = y.
Proof.
  induction l as [|a l IH]; [by intros _ ?%elem_of_nil|].
  cbn [map]. intros [Ha Hnd]%NoDup_cons.
  intros [->|Hx]%elem_of_cons [->|Hy]%elem_of_cons Hf; [done| | |by apply IH].
  - destruct Ha. rewrite Hf. by apply (list_elem_of_fmap_2 f).
  - destruct Ha. rewrite <- Hf. by apply (list_elem_of_fmap_2 f).
Qed.

Section deduplicated_again_facts.
Context `{Sorter}.


End deduplicated_again_facts.

(** * The Deduplication Engine *)

(** The scenario of the spec on the copy: whichever sort is used, the
    sorted, deduplicated copy of the three rows of vehicle 7 holds the
    row of 2022-03-01 alone. *)
Lemma deduplicated_vehicle7 `{Sorter} :
  deduplicated vehicle7
  = [row 101 7 (Stamp (ymd 2022 3 1)) (Stamp (ymd 2010 6 1)) "NT" "F" 4].
Proof.
  assert (Hid : ∀ x, x ∈ deduplicated vehicle7 → vehicle_id x = 7).
  { intros x Hx%elem_of_deduplicated. unfold vehicle7 in Hx.
    repeat (apply elem_of_cons in Hx as [->|Hx]; [done|]).
    by apply elem_of_nil in Hx. }
  pose proof (deduplicated_NoDup vehicle7) as Hnd.
  destruct (deduplicated_covers vehicle7
              (row 101 7 (Stamp (ymd 2022 3 1)) (Stamp (ymd 2010 6 1)) "NT" "F" 4))
    as (x0 & Hx0 & _); [by left|].
  pose proof (λ x y, deduplicated_earliest vehicle7 x y) as Hmin.
  pose proof (elem_of_deduplicated vehicle7) as Hsub.
  destruct (deduplicated vehicle7) as [|x [|x' D]].
  - by apply elem_of_nil in Hx0.
  - clear Hx0 x0. f_equal.
    assert (Hx : x ∈ vehicle7) by (apply Hsub; by left).
    specialize (Hmin x
      (row 101 7 (Stamp (ymd 2022 3 1)) (Stamp (ymd 2010 6 1)) "NT" "F" 4)).
    unfold vehicle7 in Hx.
    apply elem_of_cons in Hx as [->|Hx]; [done|].
    apply elem_of_cons in Hx as [->|Hx];
      [exfalso; by assert (datetime_le
         (test_date (row 102 7 (Stamp (ymd 2022 3 15)) (Stamp (ymd 2010 6 1)) "NT" "P" 4))
         (Stamp (ymd 2022 3 1))) by (apply Hmin; [by left|by left|done])|].
    apply elem_of_cons in Hx as [->|Hx];
      [exfalso; by assert (datetime_le
         (test_date (row 103 7 (Stamp (ymd 2022 4 1)) (Stamp (ymd 2010 6 1)) "NT" "P" 4))
         (Stamp (ymd 2022 3 1))) by (apply Hmin; [by left|by left|done])|].
    by apply elem_of_nil in Hx.
  - exfalso. cbn [map] in Hnd. apply NoDup_cons in Hnd as [Hnd _].
    apply Hnd. rewrite (Hid x) by (by left).
    rewrite <- (Hid x') by (right; by left). by left.
Qed.

(** C1 (defect of the code).  Uniqueness of [vehicle_id] after the
    Deduplication Engine fails on the working table: on the three rows
    of vehicle 7 the statement of line 60 runs without error and [df]
    still holds all three rows, whose vehicle ids are not pairwise
    distinct.  The deduplicated rows went to the copy that
    [sort_values] returned ([deduplicated_NoDup]). *)
Theorem dedup_statement_keeps_duplicated_vehicle_ids `{Sorter} :
  ∃ s', dedup_statement (initial vehicle7) = Ok (tt, s')
        ∧ working_table s' = Some vehicle7
        ∧ ¬ NoDup (map vehicle_id vehicle7).
Proof.
  destruct (dedup_statement_frame (initial vehicle7) vehicle7) as (s' & Hrun & Hwt & _);
    [done|].
  exists s'. split; [done|]. split; [done|].
  cbn. intros Hnd. apply NoDup_cons in Hnd as [Hnd _]. apply Hnd. by left.
Qed.

(** C2.  The deduplication statement leaves the working table as it
    was: it runs without error, [df] refers to the same object, that
    object holds the same rows in the same order, and so does every
    other object that existed before; only a new object is added. *)
Theorem dedup_statement_leaves_working_table `{Sorter} (s : state) (fr : frame) :
  working_table s = Some fr →
  ∃ s', dedup_statement s = Ok (tt, s')
        ∧ df s' = df s
        ∧ working_table s' = Some fr
        ∧ (∀ l fr0, heap s !! l = Some fr0 → heap s' !! l = Some fr0).
Proof.
  intros Hwt. eexists. split; [by apply dedup_statement_spec|].
  split; [done|]. split.
  - unfold working_table in *. cbn [heap df set_heap].
    rewrite lookup_insert_ne; [done|].
    apply not_eq_sym. by eapply fresh_not_allocated.
  - intros l fr0 Hl. cbn [heap set_heap].
    rewrite lookup_insert_ne; [done|].
    apply not_eq_sym. by eapply fresh_not_allocated.
Qed.

Lemma dedup_statement_leaves_working_table_witness :
  working_table (initial vehicle7) = Some vehicle7
  ∧ ∃ s', dedup_statement (H := merge_sorter) (initial vehicle7) = Ok (tt, s')
          ∧ df s' = df (initial vehicle7)
          ∧ working_table s' = Some vehicle7
          ∧ (∀ l fr0, heap (initial vehicle7) !! l = Some fr0 →
                      heap s' !! l = Some fr0).
Proof.
  split; [reflexivity|].
  apply (dedup_statement_leaves_working_table (H := merge_sorter)).
  reflexivity.
Defined.

(** C3 (defect of the code).  On the three rows of vehicle 7 the count
    of line 44 reports two removed rows, yet after the deduplication
    statement the working table still has all its rows: the length
    before minus the length after is zero.  The count does equal the
    number of rows dropped from the sorted copy
    ([deduplicated_removed], [drop_duplicates_count]). *)
Theorem reported_duplicates_not_removed `{Sorter} :
  ∃ s' fr', (count_duplicates ;; dedup_statement) (initial vehicle7) = Ok (tt, s')
            ∧ num_duplicate_vehicle_ids s' = Some 2
            ∧ working_table s' = Some fr'
            ∧ Z.of_nat (length vehicle7) - Z.of_nat (length fr') = 0.
Proof.
  destruct (count_duplicates_spec (initial vehicle7) vehicle7)
    as (s1 & Hrun1 & Hwt1 & _ & Hn1); [done|].
  destruct (dedup_statement_frame s1 vehicle7) as (s2 & Hrun2 & Hwt2 & _ & Hn2);
    [done|].
  exists s2, vehicle7. split; [|split; [|split]].
  - unfold mbind, M_bind. by rewrite Hrun1.
  - rewrite Hn2, Hn1. by vm_compute.
  - done.
  - lia.
Qed.

(** C4 (defect of the code).  On the three rows of vehicle 7 the
    deduplication statement leaves all three rows in the working table,
    not the row of 2022-03-01 alone.  That row alone is what the new
    object holds, which no variable refers to. *)
Theorem scenario_vehicle7_keeps_three_rows `{Sorter} :
  ∃ s', dedup_statement (initial vehicle7) = Ok (tt, s')
        ∧ working_table s' = Some vehicle7
        ∧ length vehicle7 = 3%nat
        ∧ heap s' !! fresh (dom (heap (initial vehicle7)))
          = Some [row 101 7 (Stamp (ymd 2022 3 1)) (Stamp (ymd 2010 6 1)) "NT" "F" 4]
        ∧ df s' ≠ fresh (dom (heap (initial vehicle7))).
Proof.
  eexists. split; [by apply dedup_statement_spec|].
  split; [|split; [done|split]].
  - unfold working_table. cbn [heap df set_heap].
    rewrite lookup_insert_ne; [done|].
    apply not_eq_sym. by eapply fresh_not_allocated.
  - cbn [heap set_heap]. rewrite lookup_insert_eq. f_equal.
    apply deduplicated_vehicle7.
  - cbn [df set_heap]. by eapply fresh_not_allocated.
Qed.




(** * The Filter Stage *)

Lemma Main_filter_stage_spec s fr :
  working_table s = Some fr →
  ∃ s', Main.filter_stage s = Ok (tt, s')
        ∧ working_table s' = Some (filter (λ r, test_type r = "NT") fr)
        ∧ shown s' = shown s.
Proof. apply filter_test_type_spec. Qed.

Lemma Checkpoint_filter_stage_spec s fr :
  working_table s = Some fr →
  ∃ s', Checkpoint.filter_stage s = Ok (tt, s')
        ∧ working_table s'
          = Some (filter (λ r, test_type r = "NT" ∧ test_class_id r = 4) fr)
        ∧ shown s' = shown s.
Proof.
  intros Hwt.
  destruct (filter_test_type_spec s fr Hwt) as (s1 & Hrun1 & Hwt1 & Hs1).
  destruct (filter_test_class_spec s1 _ Hwt1) as (s2 & Hrun2 & Hwt2 & Hs2).
  exists s2. split; [|split].
  - unfold Checkpoint.filter_stage, mbind, M_bind. by rewrite Hrun1.
  - rewrite Hwt2. f_equal. rewrite list_filter_filter.
    apply list_filter_iff. tauto.
  - congruence.
Qed.

(** C5, as the code has it.  In the checkpoint script the Filter Stage
    returns exactly the rows with [test_type == "NT"] and
    [test_class_id == 4], in their order; in [main.py], which has no
    class filter, exactly the rows with [test_type == "NT"].  Neither
    raises: with no matching row the result is the empty table. *)
Theorem filter_stage_subset (fr : frame) :
  table_after Checkpoint.filter_stage fr
  = Ok (filter (λ r, test_type r = "NT" ∧ test_class_id r = 4) fr)
  ∧ table_after Main.filter_stage fr
    = Ok (filter (λ r, test_type r = "NT") fr).
Proof.
  unfold table_after. split.
  - destruct (Checkpoint_filter_stage_spec (initial fr) fr) as (s' & -> & -> & _);
      done.
  - destruct (Main_filter_stage_spec (initial fr) fr) as (s' & -> & -> & _);
      done.
Qed.

(** C5 as stated fails on [main.py]: a normal test of a class-7 vehicle
    passes its Filter Stage. *)
Lemma main_filter_stage_keeps_other_classes :
  table_after Main.filter_stage
    [row 201 11 (Stamp (ymd 2022 1 10)) (Stamp (ymd 2015 2 1)) "NT" "P" 7]
  ≠ Ok (filter (λ r, test_type r = "NT" ∧ test_class_id r = 4)
          [row 201 11 (Stamp (ymd 2022 1 10)) (Stamp (ymd 2015 2 1)) "NT" "P" 7]).
Proof. vm_compute. discriminate. Qed.

(** * The Type Normalizer *)

(** C6, as the code has it.  On [first_use_date] the conversion is
    total: a value that does not parse becomes NaT.  On [test_date],
    converted with the default [errors], a value that does not parse
    raises [ValueError] and the stage yields no table.  When no
    [test_date] fails, the result has the input's rows in the input's
    order, each with its two date cells converted and every other
    column as it was. *)
Theorem type_normalizer_coerces_first_use_date `{DateParser} (rows : list RawRecord) :
  to_datetime errors_coerce (map raw_first_use_date rows)
  = Ok (map (λ r, coerced (raw_first_use_date r)) rows)
  ∧ type_normalizer rows
    = if forallb (λ r, parseable (raw_test_date r)) rows
      then Ok (map (λ r, with_dates r (coerced (raw_test_date r))
                                      (coerced (raw_first_use_date r))) rows)
      else Raised ValueError.
Proof.
  split.
  - by rewrite to_datetime_coerce, map_map.
  - unfold type_normalizer. rewrite to_datetime_raise, to_datetime_coerce.
    rewrite forallb_map_compose, !map_map.
    destruct (forallb _ rows); [|done]. cbn [result_bind]. f_equal.
    apply (assign_dates_map (λ r, coerced (raw_test_date r))
                            (λ r, coerced (raw_first_use_date r))).
Qed.

(** C6 as stated fails on [test_date]: a test date that does not parse
    makes the Type Normalizer raise. *)
Lemma type_normalizer_raises_on_test_date :
  parse_ymd "unknown" = None
  ∧ type_normalizer (H := ymd_parser) loaded_bad = Raised ValueError.
Proof. split; reflexivity. Qed.

(** * The Feature Deriver *)

(** The derived column leaves every other cell of a row as it was. *)
Lemma with_label_columns (r : TestRecord) :
  loaded_columns (with_label r) = loaded_columns r
  ∧ vehicle_age (with_label r) = vehicle_age r
  ∧ make_model (with_label r) = make_model r
  ∧ test_result_passed (with_label r) = Some (label_of r).
Proof. done. Qed.









(** * The Summarizer *)

(** The lambda is one-to-one on the categories exactly when at most one
    of them is not "P". *)
Lemma passed_of_code_one_to_one (categories : gset string) :
  NoDup (map passed_of_code (elements categories))
  ↔ ∀ c1 c2, c1 ∈ categories → c2 ∈ categories →
             c1 ≠ "P" → c2 ≠ "P" → c1 = c2.
Proof.
  split.
  - intros Hnd c1 c2 H1%elem_of_elements H2%elem_of_elements Hp1 Hp2.
    apply (NoDup_map_eq passed_of_code (elements categories)); [done..|].
    by rewrite !passed_of_code_0.
  - intros Hone. apply (NoDup_fmap_2_strong passed_of_code);
      [|apply NoDup_elements].
    intros c1 c2 H1%elem_of_elements H2%elem_of_elements Heq.
    destruct (decide (c1 = "P")) as [->|Hp1], (decide (c2 = "P")) as [->|Hp2];
      [done| | |by apply Hone].
    + rewrite (passed_of_code_0 c2) in Heq by done. by vm_compute in Heq.
    + rewrite (passed_of_code_0 c1) in Heq by done. by vm_compute in Heq.
Qed.

(** Lines 40 to 42 of [main.py], 69 to 71 of the checkpoint. *)
Lemma pass_rate_run s fr :
  working_table s = Some fr →
  if decide (fr = [] ∨ NoDup (map passed_of_code
                                (elements (test_result_categories s))))
  then (derive_test_result_passed ;; show_pass_rate) s = Raised TypeError
  else ∃ s', (derive_test_result_passed ;; show_pass_rate) s = Ok (tt, s')
             ∧ working_table s' = Some (map with_label fr)
             ∧ shown s' = mean (map label_of fr) :: shown s
             ∧ num_duplicate_vehicle_ids s' = num_duplicate_vehicle_ids s
             ∧ test_result_passed_dtype s' = Some dtype_number
             ∧ test_result_categories s' = test_result_categories s.
Proof.
  intros Hwt.
  destruct (derive_test_result_passed_spec s fr Hwt)
    as (s1 & R1 & W1 & S1 & D1 & N1 & C1).
  pose proof (apply_dtype_category (test_result_categories s) fr) as Hcat.
  case_decide as Hd.
  - apply Hcat in Hd. rewrite Hd in D1.
    unfold mbind, M_bind. rewrite R1.
    by apply (show_pass_rate_raises s1 fr).
  - assert (Hnum : test_result_passed_dtype s1 = Some dtype_number).
    { rewrite D1. destruct (apply_dtype _ _ _) eqn:E; [|done].
      destruct Hd. by apply Hcat. }
    destruct (show_pass_rate_spec s1 fr W1 Hnum)
      as (s2 & R2 & W2 & S2 & N2 & D2 & C2).
    exists s2. split; [unfold mbind, M_bind; by rewrite R1|].
    split; [congruence|]. split; [congruence|]. split; [congruence|].
    split; congruence.
Qed.




(** * The scripts on a small load *)

(** With the two result codes P and F the label column is a
    categorical and line 42 raises. *)
Example main_script_on_loaded_ok :
  Main.script (H := ymd_parser) (H0 := merge_sorter) loaded_ok
  = Raised TypeError.
Proof. by vm_compute. Qed.

Example checkpoint_script_on_loaded_ok :
  Checkpoint.script (H := ymd_parser) (H0 := merge_sorter) loaded_ok
  = Raised TypeError.
Proof. by vm_compute. Qed.

Example main_script_on_loaded_three :
  ∃ s fr, Main.script (H := ymd_parser) (H0 := merge_sorter) loaded_three = Ok s
          ∧ working_table s = Some fr
          ∧ map test_date fr = [Stamp (ymd 2022 3 1); Stamp (ymd 2022 3 2); NaT]
          ∧ map first_use_date fr = [Stamp (ymd 2010 6 1); NaT; NaT]
          ∧ map test_result_passed fr
            = [Some (label 1); Some (label 0); Some (label 0)]
          ∧ shown s = [Num (1 # 3); Num (1 # 3)]
          ∧ num_duplicate_vehicle_ids s = Some 0.
Proof. eexists _, _. split; [vm_compute; reflexivity|]. by vm_compute. Qed.

Example checkpoint_script_on_loaded_three :
  ∃ s fr, Checkpoint.script (H := ymd_parser) (H0 := merge_sorter) loaded_three
          = Ok s
          ∧ working_table s = Some fr
          ∧ map vehicle_age fr
            = [Some (Delta (ymd 2022 3 1 - ymd 2010 6 1)); Some NaTd; Some NaTd]
          ∧ map make_model fr
            = [Some "FORD FOCUS"; Some "FORD FOCUS"; Some "FORD FOCUS"]
          ∧ shown s = [Num (1 # 3)].
Proof. eexists _, _. split; [vm_compute; reflexivity|]. by vm_compute. Qed.

Example scripts_on_loaded_bad :
  Main.script (H := ymd_parser) (H0 := merge_sorter) loaded_bad = Raised ValueError
  ∧ Checkpoint.script (H := ymd_parser) (H0 := merge_sorter) loaded_bad
    = Raised ValueError.
Proof. split; reflexivity. Qed.

(** [main.py] on the three tests of vehicle 7, whose results are P and
    F: line 42 raises. *)
Example main_body_on_vehicle7 :
  Main.body (H := merge_sorter) (initial vehicle7) = Raised TypeError.
Proof. by vm_compute. Qed.

(** [main.py] on the mixed sample, with three result codes: one
    duplicate is counted, the table keeps its four normal tests, and the
    pass rate of line 66 is the pass rate of line 42. *)
Example main_body_on_fleet :
  ∃ s fr, Main.body (H := merge_sorter) (initial fleet) = Ok (tt, s)
          ∧ working_table s = Some fr
          ∧ map test_id fr = [201; 203; 204; 205]
          ∧ num_duplicate_vehicle_ids s = Some 1
          ∧ shown s = [Num (2 # 4); Num (2 # 4)].
Proof. eexists _, _. split; [vm_compute; reflexivity|]. by vm_compute. Qed.

(** The checkpoint on tests with missing cells: the test without a
    result has no label and is left out of the mean, and a missing make
    or model reads "nan" in [make_model]. *)
Example checkpoint_body_on_untested :
  ∃ s fr, Checkpoint.body (H := merge_sorter) (initial untested) = Ok (tt, s)
          ∧ working_table s = Some fr
          ∧ map test_result_passed fr
            = [Some (label 1); Some label_NaN; Some (label 0); Some (label 0)]
          ∧ map make_model fr
            = [Some "FORD KA"; Some "LAND ROVER DEFENDER"; Some "FIAT nan";
               Some "nan 500"]
          ∧ shown s = [Num (1 # 3)].
Proof. eexists _, _. split; [vm_compute; reflexivity|]. by vm_compute. Qed.

(** Normal tests without a result among other tests with three result
    codes: the label column is numeric and its mean is NaN. *)
Example main_body_without_results :
  ∃ s, Main.body (H := merge_sorter)
         (initial
            [ row_cells 801 71 (Stamp (ymd 2022 5 1)) NaT Blank
                (Text "FORD") (Text "KA");
              row 802 72 (Stamp (ymd 2022 5 2)) NaT "RT" "P" 4;
              row 803 73 (Stamp (ymd 2022 5 3)) NaT "RT" "F" 4;
              row 804 74 (Stamp (ymd 2022 5 4)) NaT "RT" "PRS" 4 ])
       = Ok (tt, s)
       ∧ shown s = [NaN; NaN].
Proof. eexists. split; [vm_compute; reflexivity|]. by vm_compute. Qed.

(** * Further properties of the scripts *)

(** ** Counting rows by key *)

Lemma sum_nat_map_add {K} (f g : K → nat) (S : list K) :
  sum_nat (map (λ k, f k + g k)%nat S)
  = (sum_nat (map f S) + sum_nat (map g S))%nat.
Proof. induction S as [|k S IH]; [done|]. simpl. rewrite IH. lia. Qed.

Lemma sum_nat_map_ext {K} (f g : K → nat) (S : list K) :
  (∀ k, k ∈ S → f k = g k) → sum_nat (map f S) = sum_nat (map g S).
Proof.
  induction S as [|k S IH]; intros Hfg; [done|]. simpl.
  rewrite (Hfg k) by (by left). rewrite IH; [done|].
  intros k' Hk'. apply Hfg. by right.
Qed.

Lemma sum_nat_indicator {K} `{EqDecision K} (x : K) (S : list K) :
  NoDup S →
  sum_nat (map (λ k, if decide (x = k) then 1 else 0)%nat S)
  = if decide (x ∈ S) then 1%nat else 0%nat.
Proof.
  induction 1 as [|k S Hk Hnd IH]; [done|]. cbn [map sum_nat foldr].
  fold (sum_nat (map (λ k, if decide (x = k) then 1 else 0)%nat S)).
  rewrite IH. repeat case_decide; simplify_eq; try done; set_solver.
Qed.

Section count_key_facts.
Context {A K : Type} `{Countable K}.
Variable subset : A → K.

Lemma count_key_cons k r rows :
  count_key subset k (r :: rows)
  = ((if decide (subset r = k) then 1 else 0) + count_key subset k rows)%nat.
Proof.
  unfold count_key. rewrite filter_cons. by destruct (decide (subset r = k)).
Qed.

Lemma count_key_pos k rows :
  (1 ≤ count_key subset k rows)%nat ↔ ∃ r, r ∈ rows ∧ subset r = k.
Proof.
  unfold count_key. split.
  - intros Hc. destruct (filter (λ r, subset r = k) rows) as [|r l] eqn:E;
      [simpl in Hc; lia|].
    assert (Hr : r ∈ filter (λ r, subset r = k) rows) by (rewrite E; by left).
    apply list_elem_of_filter in Hr as [? ?]. by exists r.
  - intros (r & Hr & Hk).
    assert (Hin : r ∈ filter (λ r, subset r = k) rows)
      by (by apply list_elem_of_filter).
    destruct (filter (λ r, subset r = k) rows); [by apply elem_of_nil in Hin|].
    simpl. lia.
Qed.

(** Two rows or more carry the key: there are two positions with it. *)
Lemma count_key_ge_2 k rows :
  (2 ≤ count_key subset k rows)%nat
  ↔ ∃ i j a b, (i < j)%nat ∧ rows !! i = Some a ∧ rows !! j = Some b
               ∧ subset a = k ∧ subset b = k.
Proof.
  induction rows as [|r rows IH].
  - split; [unfold count_key; simpl; lia|].
    by intros (i & j & a & b & _ & Hi & _).
  - rewrite count_key_cons. split.
    + intros Hc. destruct (decide (subset r = k)) as [Hr|Hr].
      * assert (Hpos : (1 ≤ count_key subset k rows)%nat) by lia.
        apply count_key_pos in Hpos as (b & Hb & Hkb).
        apply list_elem_of_lookup_1 in Hb as [j Hj].
        by exists 0%nat, (S j), r, b; repeat split; [lia|..].
      * apply IH in Hc as (i & j & a & b & Hij & Hi & Hj & Ha & Hb).
        by exists (S i), (S j), a, b; repeat split; [lia|..].
    + intros (i & j & a & b & Hij & Hi & Hj & Ha & Hb).
      destruct j as [|j]; [lia|]. cbn in Hj. destruct i as [|i].
      * cbn in Hi. assert (a = r) by congruence. subst a k.
        rewrite decide_True by done.
        assert ((1 ≤ count_key subset (subset r) rows)%nat); [|lia].
        apply count_key_pos. exists b. split; [|done].
        by eapply list_elem_of_lookup_2.
      * cbn in Hi.
        assert ((2 ≤ count_key subset k rows)%nat); [|lia].
        apply IH. exists i, j, a, b. repeat split; [lia|done..].
Qed.

(** Over a list of distinct keys that has every key of the table, the
    group sizes add up to the number of rows. *)
Lemma sum_count_key (S : list K) rows :
  NoDup S → (∀ r, r ∈ rows → subset r ∈ S) →
  sum_nat (map (λ k, count_key subset k rows) S) = length rows.
Proof.
  intros Hnd. induction rows as [|r rows IH]; intros Hall.
  - unfold count_key. simpl. clear Hnd Hall.
    induction S as [|k S IHS]; [done|]. simpl. apply IHS.
  - rewrite (sum_nat_map_ext _
      (λ k, (if decide (subset r = k) then 1 else 0)
            + count_key subset k rows)%nat)
      by (intros; apply count_key_cons).
    rewrite sum_nat_map_add, sum_nat_indicator by done.
    rewrite decide_True by (apply Hall; by left).
    rewrite IH; [done|]. intros r' Hr'. apply Hall. by right.
Qed.

Lemma boolean_index_length {B} (mask : list bool) (l : list B) :
  (length (boolean_index mask l) ≤ length l)%nat.
Proof.
  revert l. induction mask as [|b mask IH]; intros [|x l]; simpl; try lia.
  specialize (IH l). destruct b; simpl; lia.
Qed.

Lemma boolean_index_all {B} (mask : list bool) (l : list B) :
  length (boolean_index mask l) = length l → boolean_index mask l = l.
Proof.
  revert l. induction mask as [|b mask IH]; intros [|x l]; simpl; try done.
  destruct b; simpl.
  - intros Hl. f_equal. apply IH. lia.
  - pose proof (boolean_index_length mask l). lia.
Qed.

Lemma nunique_le_length rows : (nunique subset rows ≤ length rows)%nat.
Proof. rewrite <- drop_duplicates_length. apply boolean_index_length. Qed.

Lemma nunique_pos rows : rows ≠ [] → (1 ≤ nunique subset rows)%nat.
Proof.
  intros Hne. destruct rows as [|r rows]; [done|].
  rewrite <- drop_duplicates_length, drop_duplicates_keep_unseen.
  rewrite keep_unseen_cons. rewrite decide_False by set_solver. simpl. lia.
Qed.

(** No value is repeated exactly when [nunique] is the length. *)
Lemma nunique_length_NoDup rows :
  nunique subset rows = length rows ↔ NoDup (map subset rows).
Proof.
  rewrite <- drop_duplicates_length. split.
  - intros Hlen. apply boolean_index_all in Hlen.
    rewrite <- Hlen. apply drop_duplicates_NoDup.
  - intros Hnd. by rewrite drop_duplicates_id.
Qed.
End count_key_facts.

(** ** The duplicate counts (lines 44-45 of [main.py], 48-49 of the
    checkpoint) *)

(** X1.  The two duplicate counts are never negative and are below the
    number of rows of a table that has rows; each is zero exactly when
    the ids of its column are pairwise distinct.  The statement leaves
    the working table as it is. *)
Theorem count_duplicates_zero_iff_distinct (s : state) (fr : frame) :
  working_table s = Some fr →
  ∃ s' nv nt, count_duplicates s = Ok (tt, s')
              ∧ working_table s' = Some fr
              ∧ num_duplicate_vehicle_ids s' = Some nv
              ∧ num_duplicate_tests s' = Some nt
              ∧ 0 ≤ nv ∧ 0 ≤ nt
              ∧ (fr ≠ [] → nv < Z.of_nat (length fr) ∧ nt < Z.of_nat (length fr))
              ∧ (nv = 0 ↔ NoDup (map vehicle_id fr))
              ∧ (nt = 0 ↔ NoDup (map test_id fr)).
Proof.
  unfold working_table. intros Hwt.
  eexists _, _, _. split; [run_stmt Hwt; reflexivity|].
  cbn [heap df num_duplicate_vehicle_ids num_duplicate_tests].
  split; [done|]. split; [done|]. split; [done|].
  pose proof (nunique_le_length vehicle_id fr).
  pose proof (nunique_le_length test_id fr).
  split; [lia|]. split; [lia|]. split; [|split].
  - intros Hne. pose proof (nunique_pos vehicle_id fr Hne).
    pose proof (nunique_pos test_id fr Hne). lia.
  - rewrite <- nunique_length_NoDup. lia.
  - rewrite <- nunique_length_NoDup. lia.
Qed.

Lemma count_duplicates_zero_iff_distinct_witness :
  working_table (initial fleet) = Some fleet
  ∧ ∃ s' nv nt, count_duplicates (initial fleet) = Ok (tt, s')
                ∧ working_table s' = Some fleet
                ∧ num_duplicate_vehicle_ids s' = Some nv
                ∧ num_duplicate_tests s' = Some nt
                ∧ 0 ≤ nv ∧ 0 ≤ nt
                ∧ (fleet ≠ [] → nv < Z.of_nat (length fleet)
                                ∧ nt < Z.of_nat (length fleet))
                ∧ (nv = 0 ↔ NoDup (map vehicle_id fleet))
                ∧ (nt = 0 ↔ NoDup (map test_id fleet)).
Proof.
  split; [reflexivity|].
  apply (count_duplicates_zero_iff_distinct (initial fleet) fleet). reflexivity.
Defined.

(** ** The table of duplicated rows and its group counts (lines 52-56 of
    [main.py], 53-58 of the checkpoint) *)

Section duplicated_all_facts.
Context {A K : Type} `{Countable K}.
Variable subset : A → K.

Lemma duplicated_all_filter rows :
  boolean_index (duplicated_all subset rows) rows
  = filter (λ r, (2 ≤ count_key subset (subset r) rows)%nat) rows.
Proof.
  unfold duplicated_all.
  apply (boolean_index_filter
           (λ r, bool_decide (2 ≤ count_key subset (subset r) rows)%nat)).
  intros r. apply bool_decide_eq_true.
Qed.

Lemma count_key_perm k (l l' : list A) :
  l ≡ₚ l' → count_key subset k l = count_key subset k l'.
Proof. intros Hp. unfold count_key. by rewrite Hp. Qed.

(** Filtering on a property of the key keeps or empties whole groups. *)
Lemma count_key_filter_key (Q : K → Prop) `{∀ k, Decision (Q k)} k rows :
  count_key subset k (filter (λ r, Q (subset r)) rows)
  = if decide (Q k) then count_key subset k rows else 0%nat.
Proof.
  induction rows as [|r rows IH]; [unfold count_key; simpl; by case_decide|].
  rewrite filter_cons. destruct (decide (Q (subset r))) as [HQ|HQ].
  - rewrite !count_key_cons, IH.
    destruct (decide (subset r = k)) as [<-|Hne]; [|done].
    by rewrite !decide_True by done.
  - rewrite count_key_cons, IH.
    destruct (decide (subset r = k)) as [<-|Hne]; [|done].
    by rewrite !decide_False by done.
Qed.

Lemma NoDup_count_key rows :
  NoDup (map subset rows) ↔ ∀ k, (count_key subset k rows ≤ 1)%nat.
Proof.
  induction rows as [|r rows IH].
  - split; [intros _ k; unfold count_key; simpl; lia | constructor].
  - cbn [map]. rewrite NoDup_cons, IH. split.
    + intros [Hr Hle] k. rewrite count_key_cons.
      destruct (decide (subset r = k)) as [<-|Hne]; [|apply Hle].
      destruct (count_key subset (subset r) rows) as [|c] eqn:E; [lia|].
      exfalso. apply Hr.
      assert (Hpos : (1 ≤ count_key subset (subset r) rows)%nat) by lia.
      apply count_key_pos in Hpos as (r' & Hr' & <-).
      by apply (list_elem_of_fmap_2 subset).
    + intros Hle. split.
      * intros Hin. apply list_elem_of_fmap_1 in Hin as (r' & Hk & Hr').
        specialize (Hle (subset r)). rewrite count_key_cons in Hle.
        rewrite decide_True in Hle by done.
        assert ((1 ≤ count_key subset (subset r) rows)%nat); [|lia].
        apply count_key_pos. by exists r'.
      * intros k. specialize (Hle k). rewrite count_key_cons in Hle. lia.
Qed.
End duplicated_all_facts.

Lemma StronglySorted_le_NoDup_lt (l : list Z) :
  StronglySorted Z.le l → NoDup l → StronglySorted Z.lt l.
Proof.
  induction 1 as [|k l Hs IH Hall]; intros Hnd; constructor.
  - apply IH. by apply NoDup_cons in Hnd as [_ ?].
  - apply NoDup_cons in Hnd as [Hk _].
    rewrite Forall_forall in Hall. apply Forall_forall. intros k' Hk'.
    assert (k ≠ k') by (intros ->; first [done | by apply list_elem_of_In in Hk']).
    specialize (Hall k' Hk'). lia.
Qed.

Section duplicated_rows_facts.
Context `{IdSorter}.

Lemma df_duplicated_vehicle_ids_perm fr :
  df_duplicated_vehicle_ids fr
  ≡ₚ filter (λ r, (2 ≤ count_key vehicle_id (vehicle_id r) fr)%nat) fr.
Proof.
  unfold df_duplicated_vehicle_ids.
  by rewrite sort_values_id_perm, duplicated_all_filter.
Qed.

Lemma elem_of_df_duplicated_vehicle_ids fr r :
  r ∈ df_duplicated_vehicle_ids fr
  ↔ r ∈ fr ∧ (2 ≤ count_key vehicle_id (vehicle_id r) fr)%nat.
Proof.
  rewrite df_duplicated_vehicle_ids_perm, list_elem_of_filter. tauto.
Qed.

Lemma count_key_df_duplicated_vehicle_ids fr k :
  count_key vehicle_id k (df_duplicated_vehicle_ids fr)
  = if decide (2 ≤ count_key vehicle_id k fr)%nat
    then count_key vehicle_id k fr else 0%nat.
Proof.
  rewrite (count_key_perm vehicle_id k _ _ (df_duplicated_vehicle_ids_perm fr)).
  exact (count_key_filter_key vehicle_id
           (λ k, (2 ≤ count_key vehicle_id k fr)%nat) k fr).
Qed.

Lemma vehicle_id_in_df_duplicated fr k :
  k ∈ map vehicle_id (df_duplicated_vehicle_ids fr)
  ↔ (2 ≤ count_key vehicle_id k fr)%nat.
Proof.
  split.
  - intros Hin. apply list_elem_of_fmap_1 in Hin as (r & -> & Hr).
    by apply elem_of_df_duplicated_vehicle_ids in Hr as [_ ?].
  - intros Hc.
    assert (Hpos : (1 ≤ count_key vehicle_id k fr)%nat) by lia.
    apply count_key_pos in Hpos as (r & Hr & <-).
    apply (list_elem_of_fmap_2 vehicle_id).
    by apply elem_of_df_duplicated_vehicle_ids.
Qed.
End duplicated_rows_facts.

(** X2.  The table of duplicated rows holds exactly the rows of the
    working table whose [vehicle_id] is also the [vehicle_id] of a row
    at another position, each as often as in the working table, and it
    is sorted by [vehicle_id]. *)
Theorem df_duplicated_vehicle_ids_rows `{IdSorter} (fr : frame) :
  (∀ r, r ∈ df_duplicated_vehicle_ids fr
        ↔ ∃ i j r', i ≠ j ∧ fr !! i = Some r ∧ fr !! j = Some r'
                    ∧ vehicle_id r' = vehicle_id r)
  ∧ df_duplicated_vehicle_ids fr
    ≡ₚ filter (λ r, (2 ≤ count_key vehicle_id (vehicle_id r) fr)%nat) fr
  ∧ StronglySorted (λ a b, vehicle_id a ≤ vehicle_id b)
      (df_duplicated_vehicle_ids fr).
Proof.
  split; [|split].
  - intros r. rewrite elem_of_df_duplicated_vehicle_ids. split.
    + intros [Hr Hc]. apply list_elem_of_lookup_1 in Hr as [p Hp].
      apply count_key_ge_2 in Hc as (i & j & a & b & Hij & Hi & Hj & Ha & Hb).
      destruct (decide (p = i)) as [->|Hne].
      * exists i, j, b. repeat split; [lia|done..].
      * exists p, i, a. repeat split; done.
    + intros (i & j & r' & Hij & Hi & Hj & Hk).
      split; [by eapply list_elem_of_lookup_2|].
      apply count_key_ge_2.
      destruct (decide (i < j)%nat).
      * exists i, j, r, r'. repeat split; done.
      * exists j, i, r', r. repeat split; [lia|done..].
  - apply df_duplicated_vehicle_ids_perm.
  - apply sort_values_id_sorted.
Qed.

(** The keys of [groupby("vehicle_id")], ascending. *)
Lemma groupby_keys (fr : frame) :
  map group_vehicle_id (groupby_vehicle_id_count fr)
  = merge_sort Z.le (elements (list_to_set (map vehicle_id fr) : gset Z)).
Proof.
  unfold groupby_vehicle_id_count. rewrite map_map. cbn [group_vehicle_id].
  apply map_id.
Qed.

Lemma elem_of_groupby_keys (fr : frame) k :
  k ∈ map group_vehicle_id (groupby_vehicle_id_count fr)
  ↔ k ∈ map vehicle_id fr.
Proof.
  rewrite groupby_keys, merge_sort_Permutation, elem_of_elements.
  apply elem_of_list_to_set.
Qed.

Lemma groupby_keys_sorted (fr : frame) :
  StronglySorted Z.lt (map group_vehicle_id (groupby_vehicle_id_count fr)).
Proof.
  rewrite groupby_keys. apply StronglySorted_le_NoDup_lt.
  - apply StronglySorted_merge_sort; apply _.
  - rewrite merge_sort_Permutation. apply NoDup_elements.
Qed.

Lemma groupby_length (fr : frame) :
  length (groupby_vehicle_id_count fr) = nunique vehicle_id fr.
Proof.
  rewrite <- (length_map group_vehicle_id), groupby_keys.
  by rewrite merge_sort_Permutation.
Qed.

Section duplicated_counts_facts.
Context `{IdSorter}.

(** A vehicle with two rows or more has all its rows in the table of
    duplicated rows. *)
Lemma duplicated_group_perm fr k :
  (2 ≤ count_key vehicle_id k fr)%nat →
  filter (λ r, vehicle_id r = k) (df_duplicated_vehicle_ids fr)
  ≡ₚ filter (λ r, vehicle_id r = k) fr.
Proof.
  intros Hc. rewrite df_duplicated_vehicle_ids_perm, list_filter_filter.
  erewrite list_filter_iff; [done|]. intros r. split; [tauto|].
  intros <-. done.
Qed.

(** The sizes of the groups of duplicated rows, less one row each, add
    up to the number of rows less the number of distinct ids. *)
Lemma duplicated_rows_balance fr :
  (length (df_duplicated_vehicle_ids fr) + nunique vehicle_id fr
   = length fr + length (df_duplicated_counts fr))%nat.
Proof.
  set (S := elements (list_to_set (map vehicle_id fr) : gset Z)).
  assert (HndS : NoDup S) by apply NoDup_elements.
  assert (HinS : ∀ k, k ∈ S ↔ k ∈ map vehicle_id fr).
  { intros k. unfold S. rewrite elem_of_elements. apply elem_of_list_to_set. }
  assert (Hfr : length fr = sum_nat (map (λ k, count_key vehicle_id k fr) S)).
  { symmetry. apply sum_count_key; [done|]. intros r Hr. apply HinS.
    by apply (list_elem_of_fmap_2 vehicle_id). }
  assert (HD : length (df_duplicated_vehicle_ids fr)
               = sum_nat (map (λ k, if decide (2 ≤ count_key vehicle_id k fr)%nat
                                    then count_key vehicle_id k fr else 0%nat) S)).
  { rewrite <- (sum_count_key vehicle_id S (df_duplicated_vehicle_ids fr)).
    - apply sum_nat_map_ext. intros k _.
      apply count_key_df_duplicated_vehicle_ids.
    - done.
    - intros r [Hr _]%elem_of_df_duplicated_vehicle_ids. apply HinS.
      by apply (list_elem_of_fmap_2 vehicle_id). }
  assert (Hn : nunique vehicle_id fr = length S) by done.
  assert (Hg : length (df_duplicated_counts fr)
               = length (filter (λ k, (2 ≤ count_key vehicle_id k fr)%nat) S)).
  { unfold df_duplicated_counts. rewrite groupby_length. unfold nunique.
    rewrite <- (size_list_to_set (C := gset Z)
                  (filter (λ k, (2 ≤ count_key vehicle_id k fr)%nat) S))
      by (by apply NoDup_filter).
    f_equal. apply set_eq. intros k.
    rewrite !elem_of_list_to_set, vehicle_id_in_df_duplicated,
      list_elem_of_filter, HinS.
    split; [|tauto]. intros Hc. split; [done|].
    assert (Hpos : (1 ≤ count_key vehicle_id k fr)%nat) by lia.
    apply count_key_pos in Hpos as (r & Hr & <-).
    by apply (list_elem_of_fmap_2 vehicle_id). }
  assert (Hpos : Forall (λ k, (1 ≤ count_key vehicle_id k fr)%nat) S).
  { apply Forall_forall. intros k Hk. apply count_key_pos.
    first [apply HinS in Hk | apply list_elem_of_In, HinS in Hk].
    apply list_elem_of_fmap_1 in Hk as (r & -> & Hr). by exists r. }
  rewrite HD, Hn, Hfr, Hg. clear -Hpos.
  induction Hpos as [|k S Hk _ IH]; [done|].
  cbn [map sum_nat foldr length]. rewrite filter_cons.
  fold (sum_nat (map (λ k, if decide (2 ≤ count_key vehicle_id k fr)%nat
                           then count_key vehicle_id k fr else 0%nat) S)).
  fold (sum_nat (map (λ k, count_key vehicle_id k fr) S)).
  destruct (decide (2 ≤ count_key vehicle_id k fr)%nat); cbn [length]; lia.
Qed.
End duplicated_counts_facts.

(** X3.  The group counts of the duplicated rows have one row per
    [vehicle_id] that occurs twice or more in the working table, in
    strictly ascending order of [vehicle_id].  Each row counts all the
    working table's rows of that vehicle, so at least two, and for each
    date column those of them whose date is not NaT. *)
Theorem df_duplicated_counts_groups `{IdSorter} (fr : frame) :
  StronglySorted Z.lt (map group_vehicle_id (df_duplicated_counts fr))
  ∧ (∀ k, k ∈ map group_vehicle_id (df_duplicated_counts fr)
          ↔ (2 ≤ count_key vehicle_id k fr)%nat)
  ∧ Forall (λ g,
      let group := filter (λ r, vehicle_id r = group_vehicle_id g) fr in
      count_rows g = length group
      ∧ (2 ≤ count_rows g)%nat
      ∧ count_test_date g
        = length (filter (λ r, is_NaT (test_date r) = false) group)
      ∧ count_first_use_date g
        = length (filter (λ r, is_NaT (first_use_date r) = false) group)
      ∧ (count_test_date g ≤ count_rows g)%nat
      ∧ (count_first_use_date g ≤ count_rows g)%nat)
      (df_duplicated_counts fr).
Proof.
  split; [apply groupby_keys_sorted|]. split.
  - intros k. unfold df_duplicated_counts.
    by rewrite elem_of_groupby_keys, vehicle_id_in_df_duplicated.
  - assert (Hkeys : ∀ k,
      k ∈ merge_sort Z.le (elements (list_to_set
            (map vehicle_id (df_duplicated_vehicle_ids fr)) : gset Z)) →
      (2 ≤ count_key vehicle_id k fr)%nat).
    { intros k Hk. rewrite <- groupby_keys in Hk.
      by rewrite elem_of_groupby_keys, vehicle_id_in_df_duplicated in Hk. }
    unfold df_duplicated_counts, groupby_vehicle_id_count.
    apply (Forall_fmap _ _). apply list.Forall_forall. intros k Hk.
    apply Hkeys in Hk.
    cbn [group_vehicle_id count_rows count_test_date count_first_use_date
         compose].
    pose proof (duplicated_group_perm fr k Hk) as Hperm.
    rewrite !Hperm. fold (count_key vehicle_id k fr).
    repeat split; try done; apply length_filter.
Qed.

(** X4.  The count of line 44 is the number of duplicated rows less the
    number of their groups, and it is zero exactly when the table of
    duplicated rows is empty. *)
Theorem num_duplicate_vehicle_ids_balance `{IdSorter} (s : state) (fr : frame) :
  working_table s = Some fr →
  ∃ s' nv, count_duplicates s = Ok (tt, s')
           ∧ num_duplicate_vehicle_ids s' = Some nv
           ∧ nv = Z.of_nat (length (df_duplicated_vehicle_ids fr))
                  - Z.of_nat (length (df_duplicated_counts fr))
           ∧ (nv = 0 ↔ df_duplicated_vehicle_ids fr = []).
Proof.
  intros Hwt.
  destruct (count_duplicates_spec s fr Hwt) as (s' & Hrun & _ & _ & Hnv).
  eexists s', _. split; [done|]. split; [done|].
  pose proof (duplicated_rows_balance fr) as Hbal.
  pose proof (nunique_le_length vehicle_id fr) as Hle.
  split; [lia|]. split.
  - intros Hz. assert (Hnd : NoDup (map vehicle_id fr)).
    { apply nunique_length_NoDup. lia. }
    pose proof (proj1 (NoDup_count_key vehicle_id fr) Hnd) as Hc.
    apply elem_of_nil_inv. intros r [_ Hr]%elem_of_df_duplicated_vehicle_ids.
    specialize (Hc (vehicle_id r)). lia.
  - intros HD. rewrite HD in Hbal. cbn [length] in Hbal.
    assert (length (df_duplicated_counts fr) = 0%nat); [|lia].
    unfold df_duplicated_counts. rewrite HD. reflexivity.
Qed.

Lemma num_duplicate_vehicle_ids_balance_witness :
  working_table (initial fleet) = Some fleet
  ∧ ∃ s' nv, count_duplicates (initial fleet) = Ok (tt, s')
             ∧ num_duplicate_vehicle_ids s' = Some nv
             ∧ nv = Z.of_nat (length (df_duplicated_vehicle_ids
                                        (H := merge_id_sorter) fleet))
                    - Z.of_nat (length (df_duplicated_counts
                                          (H := merge_id_sorter) fleet))
             ∧ (nv = 0 ↔ df_duplicated_vehicle_ids (H := merge_id_sorter) fleet = []).
Proof.
  split; [reflexivity|].
  apply (num_duplicate_vehicle_ids_balance (H := merge_id_sorter)
           (initial fleet) fleet).
  reflexivity.
Defined.

(** ** [unique] and the list of outcome codes (line 37 of [main.py], 25
    of the checkpoint) *)

Section keep_unseen_more.
Context {A K : Type} `{Countable K}.
Variable subset : A → K.

(** Keys seen beforehand only remove rows. *)
Lemma keep_unseen_union (T seen : gset K) rows :
  keep_unseen subset (T ∪ seen) rows
  = filter (λ r, subset r ∉ T) (keep_unseen subset seen rows).
Proof.
  revert seen. induction rows as [|r rows IH]; intros seen; [done|].
  rewrite !keep_unseen_cons.
  replace ({[subset r]} ∪ (T ∪ seen)) with (T ∪ ({[subset r]} ∪ seen))
    by set_solver.
  rewrite IH. destruct (decide (subset r ∈ seen)) as [Hs|Hs].
  - rewrite decide_True by set_solver. done.
  - destruct (decide (subset r ∈ T)) as [Ht|Ht].
    + rewrite decide_True by set_solver. by rewrite filter_cons_False by auto.
    + rewrite decide_False by set_solver. by rewrite filter_cons_True.
Qed.
End keep_unseen_more.

Section unique_facts.
Context {K : Type} `{Countable K}.

Lemma unique_NoDup (column_ : list K) : NoDup (unique column_).
Proof.
  unfold unique. pose proof (drop_duplicates_NoDup id column_) as Hnd.
  by rewrite map_id in Hnd.
Qed.

Lemma elem_of_unique (column_ : list K) x : x ∈ unique column_ ↔ x ∈ column_.
Proof.
  unfold unique. rewrite drop_duplicates_keep_unseen. split.
  - by intros [? _]%elem_of_keep_unseen.
  - intros Hx. destruct (keep_unseen_covers id ∅ column_ x Hx) as (y & Hy & Hk);
      [set_solver|]. unfold id in Hk. by subst y.
Qed.

Lemma unique_cons x (column_ : list K) :
  unique (x :: column_) = x :: filter (λ y, y ≠ x) (unique column_).
Proof.
  unfold unique. rewrite !drop_duplicates_keep_unseen, keep_unseen_cons.
  rewrite decide_False by set_solver. f_equal.
  rewrite (keep_unseen_union id {[id x]} ∅).
  apply list_filter_iff. intros y. unfold id. set_solver.
Qed.

Lemma length_unique (column_ : list K) :
  length (unique column_) = nunique id column_.
Proof. apply drop_duplicates_length. Qed.
End unique_facts.

(** X5.  [test_result_codes] lists every result code of the lookup
    table once, in the order in which the codes first appear: the code
    of the first row comes first, followed by the codes of the other
    rows without it. *)
Theorem test_result_codes_distinct (e : OutcomeEntry)
    (test_result_details : list OutcomeEntry) :
  NoDup (test_result_codes test_result_details)
  ∧ (∀ c, c ∈ test_result_codes test_result_details
          ↔ ∃ e', e' ∈ test_result_details ∧ result_code e' = c)
  ∧ test_result_codes (e :: test_result_details)
    = result_code e
        :: filter (λ c, c ≠ result_code e) (test_result_codes test_result_details).
Proof.
  unfold test_result_codes. split; [apply unique_NoDup|]. split.
  - intros c. rewrite elem_of_unique. split.
    + intros Hc. apply list_elem_of_fmap_1 in Hc as (e' & -> & He'). by exists e'.
    + intros (e' & He' & <-). by apply (list_elem_of_fmap_2 result_code).
  - cbn [map]. apply unique_cons.
Qed.

(** ** [value_counts] (line 80 of the checkpoint) *)

Lemma sum_nat_perm (l l' : list nat) : l ≡ₚ l' → sum_nat l = sum_nat l'.
Proof.
  induction 1 as [|x l l' _ IH|x y l|l l' l'' _ IH1 _ IH2]; simpl;
    unfold sum_nat in *; simpl; lia.
Qed.

Lemma sum_nat_take_le n (l : list nat) : (sum_nat (take n l) ≤ sum_nat l)%nat.
Proof.
  revert n. induction l as [|x l IH]; intros [|n]; simpl; try lia.
  specialize (IH n). unfold sum_nat in *. lia.
Qed.

Section value_counts_facts.
Context `{FreqSorter}.

Lemma value_counts_perm column_ :
  value_counts column_
  ≡ₚ map (λ v, (v, count_key id v column_)) (unique column_).
Proof. apply sort_counts_perm. Qed.

Lemma value_counts_keys column_ :
  map fst (value_counts column_) ≡ₚ unique column_.
Proof.
  change (fst <$> value_counts column_ ≡ₚ unique column_).
  rewrite value_counts_perm.
  change (map fst (map (λ v, (v, count_key id v column_)) (unique column_))
          ≡ₚ unique column_).
  rewrite map_map. cbn [fst]. by rewrite map_id.
Qed.

Lemma value_counts_counts column_ :
  map snd (value_counts column_)
  ≡ₚ map (λ v, count_key id v column_) (unique column_).
Proof.
  change (snd <$> value_counts column_
          ≡ₚ map (λ v, count_key id v column_) (unique column_)).
  rewrite value_counts_perm.
  change (map snd (map (λ v, (v, count_key id v column_)) (unique column_))
          ≡ₚ map (λ v, count_key id v column_) (unique column_)).
  by rewrite map_map.
Qed.

Lemma value_counts_sum column_ :
  sum_nat (map snd (value_counts column_)) = length column_.
Proof.
  rewrite (sum_nat_perm _ _ (value_counts_counts column_)).
  apply (sum_count_key id).
  - apply unique_NoDup.
  - intros v Hv. by apply elem_of_unique.
Qed.

Lemma value_counts_length column_ :
  length (value_counts column_) = length (unique column_).
Proof.
  rewrite <- (length_map fst). apply Permutation_length, value_counts_keys.
Qed.
End value_counts_facts.

(** X6.  [value_counts] lists every value of the column once, with the
    number of its occurrences, which is at least one; the counts are in
    descending order and add up to the length of the column. *)
Theorem value_counts_table `{FreqSorter} (column_ : list string) :
  NoDup (map fst (value_counts column_))
  ∧ (∀ v n, (v, n) ∈ value_counts column_
            ↔ v ∈ column_ ∧ n = length (filter (λ x, x = v) column_))
  ∧ Forall (λ vn, (1 ≤ vn.2)%nat) (value_counts column_)
  ∧ StronglySorted (λ a b, (b.2 ≤ a.2)%nat) (value_counts column_)
  ∧ sum_nat (map snd (value_counts column_)) = length column_.
Proof.
  assert (Hmem : ∀ v n, (v, n) ∈ value_counts column_
            ↔ v ∈ column_ ∧ n = length (filter (λ x, x = v) column_)).
  { intros v n. rewrite value_counts_perm. split.
    - intros Hin. apply list_elem_of_fmap_1 in Hin as (v' & Heq & Hv').
      injection Heq as -> ->. split; [by apply elem_of_unique|done].
    - intros [Hv ->].
      apply (list_elem_of_fmap_2' (λ v, (v, count_key id v column_)) _ v);
        [by apply elem_of_unique|done]. }
  split; [|split; [exact Hmem|split; [|split]]].
  - change (NoDup (fst <$> value_counts column_)).
    rewrite value_counts_keys. apply unique_NoDup.
  - apply list.Forall_forall. intros [v n] [Hv ->]%Hmem. cbn [snd].
    apply (count_key_pos id). by exists v.
  - apply sort_counts_sorted.
  - apply value_counts_sum.
Qed.

(** ** The combined make and model (line 77 of the checkpoint) *)

(** X7.  The statement that derives [make_model] runs without error on
    every table and changes the object [df] refers to in place; it keeps
    the rows, their order and every other cell, and in every row the new
    cell is the make, a space and the model, where a missing make or
    model reads "nan", as [astype(str)] renders it. *)
Theorem make_model_concatenates (s : state) (fr : frame) :
  working_table s = Some fr →
  ∃ s' fr', derive_make_model s = Ok (tt, s')
            ∧ df s' = df s
            ∧ working_table s' = Some fr'
            ∧ length fr' = length fr
            ∧ ∀ i r, fr !! i = Some r →
                ∃ r' mk mdl, fr' !! i = Some r'
                  ∧ loaded_columns r' = loaded_columns r
                  ∧ test_result_passed r' = test_result_passed r
                  ∧ vehicle_age r' = vehicle_age r
                  ∧ make_model r' = Some (mk ++ " " ++ mdl)%string
                  ∧ mk = match make r with Blank => "nan" | Text t => t end
                  ∧ mdl = match model r with Blank => "nan" | Text t => t end.
Proof.
  intros Hwt.
  destruct (derive_make_model_spec s fr Hwt) as (s' & Hrun & Hwt' & _).
  eexists s', _. split; [done|].
  split.
  { revert Hrun. unfold working_table in Hwt. run_stmt Hwt. by intros [= <-]. }
  split; [done|]. split; [by rewrite length_map|].
  intros i r Hi.
  exists (set_make_model r (astype_str (make r) ++ " " ++ astype_str (model r))),
    (astype_str (make r)), (astype_str (model r)).
  split; [by rewrite lookup_map, Hi|]. do 4 (split; [done|]). done.
Qed.

Lemma make_model_concatenates_witness :
  working_table (initial untested) = Some untested
  ∧ ∃ s' fr', derive_make_model (initial untested) = Ok (tt, s')
              ∧ df s' = df (initial untested)
              ∧ working_table s' = Some fr'
              ∧ length fr' = length untested
              ∧ ∀ i r, untested !! i = Some r →
                  ∃ r' mk mdl, fr' !! i = Some r'
                    ∧ loaded_columns r' = loaded_columns r
                    ∧ test_result_passed r' = test_result_passed r
                    ∧ vehicle_age r' = vehicle_age r
                    ∧ make_model r' = Some (mk ++ " " ++ mdl)%string
                    ∧ mk = match make r with Blank => "nan" | Text t => t end
                    ∧ mdl = match model r with Blank => "nan" | Text t => t end.
Proof.
  split; [reflexivity|].
  apply (make_model_concatenates (initial untested) untested). reflexivity.
Defined.

Lemma no_space_cons c s :
  no_space (String c s) = negb (Ascii.eqb c " ") && no_space s.
Proof. done. Qed.

Lemma append_space_inj (a b c d : string) :
  no_space a = true → no_space c = true →
  (a ++ " " ++ b = c ++ " " ++ d)%string → a = c ∧ b = d.
Proof.
  revert c. induction a as [|x a IH]; intros [|y c] Ha Hc Heq.
  - change (String " " b = String " " d) in Heq. by injection Heq as ->.
  - change (String " " b = String y (c ++ " " ++ d)%string) in Heq.
    injection Heq as <- _. rewrite no_space_cons in Hc. by cbn in Hc.
  - change (String x (a ++ " " ++ b)%string = String " " d) in Heq.
    injection Heq as -> _. rewrite no_space_cons in Ha. by cbn in Ha.
  - change (String x (a ++ " " ++ b)%string = String y (c ++ " " ++ d)%string)
      in Heq.
    injection Heq as -> Heq. rewrite no_space_cons in Ha, Hc.
    apply andb_prop in Ha as [_ Ha]. apply andb_prop in Hc as [_ Hc].
    destruct (IH c Ha Hc Heq) as [-> ->]. done.
Qed.

(** X8.  Take two rows of the working table whose makes, as texts,
    contain no space.  After the statement that derives [make_model]
    each has the make, a space and the model in its new cell, and when
    the two cells are equal the rows have the same make and the same
    model as texts; when the four cells are there, the makes are equal
    and the models are equal.  (A make with a space can collide: see
    [make_model_collision]; so can a missing cell and the text "nan".) *)
Theorem make_model_injective (s : state) (fr : frame) (i j : nat)
    (r1 r2 : TestRecord) :
  working_table s = Some fr →
  fr !! i = Some r1 → fr !! j = Some r2 →
  no_space (astype_str (make r1)) = true →
  no_space (astype_str (make r2)) = true →
  ∃ s' fr' r1' r2',
    derive_make_model s = Ok (tt, s')
    ∧ working_table s' = Some fr'
    ∧ fr' !! i = Some r1' ∧ fr' !! j = Some r2'
    ∧ make_model r1' = make_model (with_features r1)
    ∧ make_model r2' = make_model (with_features r2)
    ∧ (make_model r1' = make_model r2' →
       astype_str (make r1) = astype_str (make r2)
       ∧ astype_str (model r1) = astype_str (model r2)
       ∧ (∀ mk1 mk2 mdl1 mdl2,
            make r1 = Text mk1 → make r2 = Text mk2 →
            model r1 = Text mdl1 → model r2 = Text mdl2 →
            make r1 = make r2 ∧ model r1 = model r2)).
Proof.
  intros Hwt Hi Hj Hs1 Hs2.
  destruct (derive_make_model_spec s fr Hwt) as (s' & Hrun & Hwt' & _).
  eexists s', _, _, _. split; [done|]. split; [done|].
  split; [by rewrite lookup_map, Hi|]. split; [by rewrite lookup_map, Hj|].
  split; [done|]. split; [done|].
  cbn [make_model set_make_model]. intros Heq. injection Heq as Heq.
  destruct (append_space_inj _ _ _ _ Hs1 Hs2 Heq) as [Hmk Hmdl].
  split; [done|]. split; [done|].
  intros mk1 mk2 mdl1 mdl2 E1 E2 E3 E4.
  rewrite E1, E2 in Hmk |- *. rewrite E3, E4 in Hmdl |- *.
  cbn [astype_str] in Hmk, Hmdl. by subst.
Qed.

Lemma make_model_injective_witness :
  working_table (initial fleet) = Some fleet
  ∧ fleet !! 3%nat
    = Some (row 204 14 (Stamp (ymd 2022 1 13)) (Stamp (ymd 2018 3 1)) "NT" "F" 4)
  ∧ fleet !! 4%nat
    = Some (row 205 14 (Stamp (ymd 2022 1 13)) (Stamp (ymd 2018 3 1)) "NT" "P" 4)
  ∧ no_space (astype_str (make
      (row 204 14 (Stamp (ymd 2022 1 13)) (Stamp (ymd 2018 3 1)) "NT" "F" 4)))
    = true
  ∧ no_space (astype_str (make
      (row 205 14 (Stamp (ymd 2022 1 13)) (Stamp (ymd 2018 3 1)) "NT" "P" 4)))
    = true
  ∧ ∃ s' fr' r1' r2',
      derive_make_model (initial fleet) = Ok (tt, s')
      ∧ working_table s' = Some fr'
      ∧ fr' !! 3%nat = Some r1' ∧ fr' !! 4%nat = Some r2'
      ∧ make_model r1'
        = make_model (with_features
            (row 204 14 (Stamp (ymd 2022 1 13)) (Stamp (ymd 2018 3 1)) "NT" "F" 4))
      ∧ make_model r2'
        = make_model (with_features
            (row 205 14 (Stamp (ymd 2022 1 13)) (Stamp (ymd 2018 3 1)) "NT" "P" 4))
      ∧ (make_model r1' = make_model r2' →
         astype_str (make
           (row 204 14 (Stamp (ymd 2022 1 13)) (Stamp (ymd 2018 3 1)) "NT" "F" 4))
         = astype_str (make
             (row 205 14 (Stamp (ymd 2022 1 13)) (Stamp (ymd 2018 3 1)) "NT" "P" 4))
         ∧ astype_str (model
             (row 204 14 (Stamp (ymd 2022 1 13)) (Stamp (ymd 2018 3 1)) "NT" "F" 4))
           = astype_str (model
               (row 205 14 (Stamp (ymd 2022 1 13)) (Stamp (ymd 2018 3 1)) "NT" "P" 4))
         ∧ (∀ mk1 mk2 mdl1 mdl2,
              make (row 204 14 (Stamp (ymd 2022 1 13)) (Stamp (ymd 2018 3 1))
                      "NT" "F" 4) = Text mk1 →
              make (row 205 14 (Stamp (ymd 2022 1 13)) (Stamp (ymd 2018 3 1))
                      "NT" "P" 4) = Text mk2 →
              model (row 204 14 (Stamp (ymd 2022 1 13)) (Stamp (ymd 2018 3 1))
                       "NT" "F" 4) = Text mdl1 →
              model (row 205 14 (Stamp (ymd 2022 1 13)) (Stamp (ymd 2018 3 1))
                       "NT" "P" 4) = Text mdl2 →
              make (row 204 14 (Stamp (ymd 2022 1 13)) (Stamp (ymd 2018 3 1))
                      "NT" "F" 4)
              = make (row 205 14 (Stamp (ymd 2022 1 13)) (Stamp (ymd 2018 3 1))
                        "NT" "P" 4)
              ∧ model (row 204 14 (Stamp (ymd 2022 1 13)) (Stamp (ymd 2018 3 1))
                         "NT" "F" 4)
                = model (row 205 14 (Stamp (ymd 2022 1 13)) (Stamp (ymd 2018 3 1))
                           "NT" "P" 4))).
Proof.
  split; [reflexivity|]. split; [reflexivity|]. split; [reflexivity|].
  split; [reflexivity|]. split; [reflexivity|].
  apply (make_model_injective (initial fleet) fleet 3 4
           (row 204 14 (Stamp (ymd 2022 1 13)) (Stamp (ymd 2018 3 1)) "NT" "F" 4)
           (row 205 14 (Stamp (ymd 2022 1 13)) (Stamp (ymd 2018 3 1)) "NT" "P" 4));
    reflexivity.
Defined.

(** A make with a space: two different pairs of make and model with one
    [make_model]. *)
Example make_model_collision :
  ("LAND ROVER" ++ " " ++ "DEFENDER" = "LAND" ++ " " ++ "ROVER DEFENDER")%string
  ∧ "LAND ROVER" ≠ "LAND".
Proof. split; [reflexivity | discriminate]. Qed.

(** A missing model and the model "nan" give one [make_model]. *)
Example make_model_collision_nan :
  (astype_str (Text "FIAT") ++ " " ++ astype_str Blank
   = astype_str (Text "FIAT") ++ " " ++ astype_str (Text "nan"))%string
  ∧ Blank ≠ Text "nan".
Proof. split; [reflexivity | discriminate]. Qed.

(** ** The pass rate as a share of rows *)

Lemma texts_present (fr : frame) :
  length (texts (map test_result fr))
  = length (filter (λ r, test_result r ≠ Blank) fr)
  ∧ length (filter (λ code, code = "P") (texts (map test_result fr)))
    = length (filter (λ r, test_result r = Text "P") fr).
Proof.
  induction fr as [|r fr [IH1 IH2]]; [done|].
  cbn [map texts]. rewrite !(filter_cons _ r).
  destruct (test_result r) as [|code] eqn:E.
  - rewrite decide_False by (by intros ?). rewrite decide_False by done. done.
  - rewrite decide_True by done. cbn [length]. rewrite IH1. split; [done|].
    rewrite filter_cons. destruct (decide (code = "P")) as [->|Hne].
    + rewrite decide_True by done. cbn [length]. by rewrite IH2.
    + rewrite decide_False by congruence. done.
Qed.

(** X9.  On a table that has rows, and when at least two of the
    categories of [test_result] are not "P" (the lambda is not
    one-to-one on them), deriving the label and taking its mean runs
    without error and gives the number of rows whose [test_result] is
    "P" over the number of rows that have a [test_result], and NaN when
    no row has one. *)
Theorem pass_rate_is_share_of_passes (s : state) (fr : frame) :
  working_table s = Some fr →
  fr ≠ [] →
  ¬ NoDup (map passed_of_code (elements (test_result_categories s))) →
  ∃ s', (derive_test_result_passed ;; show_pass_rate) s = Ok (tt, s')
        ∧ shown s'
          = match filter (λ r, test_result r ≠ Blank) fr with
            | [] => NaN
            | _ :: _ =>
                Num (Z.of_nat (length (filter (λ r, test_result r = Text "P") fr))
                     # Pos.of_nat (length (filter (λ r, test_result r ≠ Blank) fr)))
            end :: shown s.
Proof.
  intros Hwt Hne Hcat. pose proof (pass_rate_run s fr Hwt) as Hrun.
  rewrite decide_False in Hrun by (by intros [?|?]).
  destruct Hrun as (s' & R & _ & S & _).
  exists s'. split; [done|]. rewrite S. f_equal.
  rewrite mean_labels. destruct (texts_present fr) as [Hlen Hp].
  rewrite Hp, Hlen.
  destruct (texts (map test_result fr)) as [|c codes],
    (filter (λ r, test_result r ≠ Blank) fr) as [|r l]; done.
Qed.

Lemma pass_rate_is_share_of_passes_witness :
  working_table (initial untested) = Some untested
  ∧ untested ≠ []
  ∧ ¬ NoDup (map passed_of_code
               (elements (test_result_categories (initial untested))))
  ∧ ∃ s', (derive_test_result_passed ;; show_pass_rate) (initial untested)
          = Ok (tt, s')
          ∧ shown s'
            = match filter (λ r, test_result r ≠ Blank) untested with
              | [] => NaN
              | _ :: _ =>
                  Num (Z.of_nat (length (filter (λ r, test_result r = Text "P")
                                           untested))
                       # Pos.of_nat (length (filter (λ r, test_result r ≠ Blank)
                                               untested)))
              end :: shown (initial untested).
Proof.
  assert (H1 : untested ≠ []) by discriminate.
  assert (H2 : ¬ NoDup (map passed_of_code
                          (elements (test_result_categories (initial untested))))).
  { apply (bool_decide_unpack _). by vm_compute. }
  split; [reflexivity|]. split; [exact H1|]. split; [exact H2|].
  exact (pass_rate_is_share_of_passes (initial untested) untested
           eq_refl H1 H2).
Defined.

(** ** Objects: what the statements allocate and what they change *)

(** X10.  Boolean indexing builds a new object: after either filter
    statement [df] refers to a location that was not in use, and the
    object it referred to before, like every other object, still holds
    the rows it held. *)
Theorem filter_statements_rebind (s : state) (fr : frame) :
  working_table s = Some fr →
  (∃ s', filter_test_type s = Ok (tt, s')
         ∧ heap s !! df s' = None
         ∧ (∀ l fr0, heap s !! l = Some fr0 → heap s' !! l = Some fr0))
  ∧ (∃ s', filter_test_class s = Ok (tt, s')
           ∧ heap s !! df s' = None
           ∧ (∀ l fr0, heap s !! l = Some fr0 → heap s' !! l = Some fr0)).
Proof.
  unfold working_table. intros Hwt.
  assert (Hfresh : heap s !! fresh (dom (heap s)) = None).
  { apply not_elem_of_dom. apply is_fresh. }
  split; eexists; (split; [run_stmt Hwt; reflexivity|]);
    cbn [heap df set_heap]; (split; [done|]);
    intros l fr0 Hl; (rewrite lookup_insert_ne; [done|]);
    apply not_eq_sym; by eapply fresh_not_allocated.
Qed.

Lemma filter_statements_rebind_witness :
  working_table (initial fleet) = Some fleet
  ∧ (∃ s', filter_test_type (initial fleet) = Ok (tt, s')
           ∧ heap (initial fleet) !! df s' = None
           ∧ (∀ l fr0, heap (initial fleet) !! l = Some fr0 →
                       heap s' !! l = Some fr0))
  ∧ (∃ s', filter_test_class (initial fleet) = Ok (tt, s')
           ∧ heap (initial fleet) !! df s' = None
           ∧ (∀ l fr0, heap (initial fleet) !! l = Some fr0 →
                       heap s' !! l = Some fr0)).
Proof.
  split; [reflexivity|].
  apply (filter_statements_rebind (initial fleet) fleet). reflexivity.
Defined.

(** X11.  Column assignment works in place: after the statements
    that derive the label and the make and model, which run without
    error on every table, [df] refers to the same object as before, no
    object has been added or removed, and no other object has changed.
    The statement that derives [vehicle_age] raises [OverflowError]
    when the difference of the two dates of some row is outside the
    int64 range, and works in place in the same way otherwise. *)
Theorem derive_statements_in_place (s : state) (fr : frame) :
  working_table s = Some fr →
  Forall (λ stmt : M unit,
            ∃ s', stmt s = Ok (tt, s')
                  ∧ df s' = df s
                  ∧ dom (heap s') = dom (heap s)
                  ∧ (∀ l, l ≠ df s → heap s' !! l = heap s !! l))
    [derive_test_result_passed; derive_make_model]
  ∧ if existsb age_overflows fr
    then derive_vehicle_age s = Raised OverflowError
    else ∃ s', derive_vehicle_age s = Ok (tt, s')
               ∧ df s' = df s
               ∧ dom (heap s') = dom (heap s)
               ∧ (∀ l, l ≠ df s → heap s' !! l = heap s !! l).
Proof.
  intros Hwt.
  assert (Hdom : df s ∈ dom (heap s)) by (apply elem_of_dom; by exists fr).
  split.
  - unfold working_table in Hwt.
    repeat constructor; eexists;
      (split; [run_stmt Hwt; reflexivity|]); cbn [heap df set_heap];
      (split; [done|]);
      (split; [rewrite dom_insert_L; set_solver
              | intros l Hl; by rewrite lookup_insert_ne]).
  - destruct (existsb age_overflows fr) eqn:Hov.
    + by apply (derive_vehicle_age_raises s fr).
    + unfold working_table in Hwt. eexists.
      split; [run_stmt Hwt; rewrite series_sub_rows, Hov; reflexivity|].
      cbn [heap df set_heap]. split; [done|].
      split; [rewrite dom_insert_L; set_solver
             | intros l Hl; by rewrite lookup_insert_ne].
Qed.

Lemma derive_statements_in_place_witness :
  working_table (initial fleet) = Some fleet
  ∧ Forall (λ stmt : M unit,
              ∃ s', stmt (initial fleet) = Ok (tt, s')
                    ∧ df s' = df (initial fleet)
                    ∧ dom (heap s') = dom (heap (initial fleet))
                    ∧ (∀ l, l ≠ df (initial fleet) →
                            heap s' !! l = heap (initial fleet) !! l))
      [derive_test_result_passed; derive_make_model]
  ∧ if existsb age_overflows fleet
    then derive_vehicle_age (initial fleet) = Raised OverflowError
    else ∃ s', derive_vehicle_age (initial fleet) = Ok (tt, s')
               ∧ df s' = df (initial fleet)
               ∧ dom (heap s') = dom (heap (initial fleet))
               ∧ (∀ l, l ≠ df (initial fleet) →
                       heap s' !! l = heap (initial fleet) !! l).
Proof.
  split; [reflexivity|].
  apply (derive_statements_in_place (initial fleet) fleet). reflexivity.
Defined.

(** ** The copy the deduplication statement builds (line 60 of
    [main.py], 64 of the checkpoint) *)

Lemma elem_of_boolean_index {A} (mask : list bool) (l : list A) x :
  x ∈ boolean_index mask l → x ∈ l.
Proof.
  revert l. induction mask as [|b mask IH]; intros [|y l]; simpl;
    try (by intros ?%elem_of_nil).
  destruct b.
  - intros [->|?]%elem_of_cons; [by left | right; by apply IH].
  - intros ?. right. by apply IH.
Qed.

Lemma StronglySorted_boolean_index {A} (R : relation A) (mask : list bool)
    (l : list A) :
  StronglySorted R l → StronglySorted R (boolean_index mask l).
Proof.
  intros Hs. revert mask. induction Hs as [|x l Hs IH Hall]; intros [|b mask];
    simpl; try constructor.
  destruct b; [|apply IH]. constructor; [apply IH|].
  apply list.Forall_forall. intros y Hy%elem_of_boolean_index.
  rewrite list.Forall_forall in Hall. by apply Hall.
Qed.

(** X12.  The deduplication statement adds one object to the store.
    It holds rows of the working table, sorted by [test_date] with NaT
    last, one for each [vehicle_id] of the working table; the row kept
    for a vehicle has the earliest [test_date] of the vehicle's rows,
    and a date whenever one of them has a date. *)
Theorem dedup_statement_copy `{Sorter} (s : state) (fr : frame) :
  working_table s = Some fr →
  ∃ s' copy, dedup_statement s = Ok (tt, s')
    ∧ dom (heap s') = {[fresh (dom (heap s))]} ∪ dom (heap s)
    ∧ heap s !! fresh (dom (heap s)) = None
    ∧ heap s' !! fresh (dom (heap s)) = Some copy
    ∧ NoDup (map vehicle_id copy)
    ∧ StronglySorted (λ a b, datetime_le (test_date a) (test_date b)) copy
    ∧ (∀ x, x ∈ copy → x ∈ fr)
    ∧ (∀ y, y ∈ fr →
         ∃ x, x ∈ copy ∧ vehicle_id x = vehicle_id y
              ∧ datetime_le (test_date x) (test_date y)
              ∧ (test_date y ≠ NaT → test_date x ≠ NaT)).
Proof.
  intros Hwt. exists (set_heap (<[fresh (dom (heap s)) := deduplicated fr]> (heap s)) s),
    (deduplicated fr).
  split; [by apply dedup_statement_spec|]. cbn [heap set_heap].
  split; [by rewrite dom_insert_L|].
  split; [apply not_elem_of_dom, is_fresh|].
  split; [by rewrite lookup_insert_eq|].
  split; [apply deduplicated_NoDup|].
  split; [apply StronglySorted_boolean_index, sort_values_sorted|].
  split; [apply elem_of_deduplicated|].
  intros y Hy. destruct (deduplicated_covers fr y Hy) as (x & Hx & Hk).
  exists x. split; [done|]. split; [done|].
  assert (Hle : datetime_le (test_date x) (test_date y))
    by (by apply (deduplicated_earliest fr)).
  split; [done|]. intros Hdate Hnat. rewrite Hnat in Hle.
  unfold datetime_le in Hle. by destruct (test_date y).
Qed.

Lemma dedup_statement_copy_witness :
  working_table (initial fleet) = Some fleet
  ∧ ∃ s' copy, dedup_statement (H := merge_sorter) (initial fleet) = Ok (tt, s')
      ∧ dom (heap s')
        = {[fresh (dom (heap (initial fleet)))]} ∪ dom (heap (initial fleet))
      ∧ heap (initial fleet) !! fresh (dom (heap (initial fleet))) = None
      ∧ heap s' !! fresh (dom (heap (initial fleet))) = Some copy
      ∧ NoDup (map vehicle_id copy)
      ∧ StronglySorted (λ a b, datetime_le (test_date a) (test_date b)) copy
      ∧ (∀ x, x ∈ copy → x ∈ fleet)
      ∧ (∀ y, y ∈ fleet →
           ∃ x, x ∈ copy ∧ vehicle_id x = vehicle_id y
                ∧ datetime_le (test_date x) (test_date y)
                ∧ (test_date y ≠ NaT → test_date x ≠ NaT)).
Proof.
  split; [reflexivity|].
  apply (dedup_statement_copy (H := merge_sorter) (initial fleet) fleet).
  reflexivity.
Defined.

(** ** The two filters together (lines 42-45 of the checkpoint) *)

(** X13.  The two filters of the checkpoint give the same table in
    either order, and running the Filter Stage of either script a second
    time changes nothing. *)
Theorem filter_stage_commutes (fr : frame) :
  table_after (filter_test_class ;; filter_test_type) fr
  = table_after Checkpoint.filter_stage fr
  ∧ table_after (Checkpoint.filter_stage ;; Checkpoint.filter_stage) fr
    = table_after Checkpoint.filter_stage fr
  ∧ table_after (Main.filter_stage ;; Main.filter_stage) fr
    = table_after Main.filter_stage fr.
Proof.
  destruct (Checkpoint_filter_stage_spec (initial fr) fr) as (s2 & R2 & W2 & _);
    [done|].
  destruct (Main_filter_stage_spec (initial fr) fr) as (s1 & R1 & W1 & _);
    [done|].
  unfold table_after at 2 4 6. rewrite R1, R2, W1, W2.
  split; [|split].
  - destruct (filter_test_class_spec (initial fr) fr) as (t1 & Q1 & V1 & _);
      [done|].
    destruct (filter_test_type_spec t1 _ V1) as (t2 & Q2 & V2 & _).
    unfold table_after, mbind, M_bind. rewrite Q1, Q2, V2. f_equal.
    rewrite list_filter_filter. apply list_filter_iff. tauto.
  - destruct (Checkpoint_filter_stage_spec s2 _ W2) as (t2 & Q2 & V2 & _).
    unfold table_after, mbind, M_bind. rewrite R2, Q2, V2. f_equal.
    rewrite list_filter_filter. apply list_filter_iff. tauto.
  - destruct (Main_filter_stage_spec s1 _ W1) as (t2 & Q2 & V2 & _).
    unfold table_after, mbind, M_bind. rewrite R1, Q2, V2. f_equal.
    rewrite list_filter_filter. apply list_filter_iff. tauto.
Qed.

(** ** The scripts from end to end *)

Lemma nunique_vehicle_id_map (f : TestRecord → TestRecord) (fr : frame) :
  (∀ r, vehicle_id (f r) = vehicle_id r) →
  nunique vehicle_id (map f fr) = nunique vehicle_id fr.
Proof.
  intros Hf. unfold nunique. rewrite map_map. do 2 f_equal.
  apply map_ext. intros r. apply Hf.
Qed.

Lemma existsb_age_overflows_with_label (fr : frame) :
  existsb age_overflows (map with_label fr) = existsb age_overflows fr.
Proof. induction fr as [|r fr IH]; [done|]. cbn [map existsb]. by rewrite IH. Qed.

Lemma Main_body_run `{Sorter} (fr : frame) :
  if decide (filter (λ r, test_type r = "NT") fr = []
             ∨ NoDup (map passed_of_code
                        (elements (test_result_categories (initial fr)))))
  then Main.body (initial fr) = Raised TypeError
  else ∃ s', Main.body (initial fr) = Ok (tt, s')
        ∧ working_table s'
          = Some (map with_label (filter (λ r, test_type r = "NT") fr))
        ∧ shown s'
          = [mean (map label_of (filter (λ r, test_type r = "NT") fr));
             mean (map label_of (filter (λ r, test_type r = "NT") fr))]
        ∧ num_duplicate_vehicle_ids s'
          = Some (Z.of_nat (length (filter (λ r, test_type r = "NT") fr))
                  - Z.of_nat (nunique vehicle_id
                                (filter (λ r, test_type r = "NT") fr))).
Proof.
  destruct (Main_filter_stage_spec (initial fr) fr) as (s1 & R1 & W1 & S1);
    [done|].
  destruct (filter_test_type_keeps _ _ R1) as (C1 & _).
  destruct (derive_test_result_passed_spec s1 _ W1)
    as (s2 & R2 & W2 & S2 & D2 & _ & C2).
  rewrite C1 in D2.
  pose proof (apply_dtype_category (test_result_categories (initial fr))
                (filter (λ r, test_type r = "NT") fr)) as Hcat.
  case_decide as Hd.
  - apply Hcat in Hd. rewrite Hd in D2.
    unfold Main.body, mbind, M_bind. rewrite R1.
    change (Main.filter_stage (initial fr)) with (filter_test_type (initial fr))
      in R1.
    by rewrite R2, (show_pass_rate_raises s2 _ W2 D2).
  - assert (D2' : test_result_passed_dtype s2 = Some dtype_number).
    { rewrite D2. destruct (apply_dtype _ _ _) eqn:E; [|done].
      destruct Hd. by apply Hcat. }
    destruct (show_pass_rate_spec s2 _ W2 D2')
      as (s3 & R3 & W3 & S3 & _ & D3 & _).
    rewrite W2 in W3.
    destruct (count_duplicates_spec s3 _ W3) as (s4 & R4 & W4 & S4 & N4).
    destruct (count_duplicates_keeps _ _ R4) as (_ & D4).
    destruct (dedup_statement_frame s4 _ W4) as (s5 & R5 & W5 & S5 & N5).
    destruct (dedup_statement_keeps _ _ R5) as (_ & D5).
    assert (D5' : test_result_passed_dtype s5 = Some dtype_number)
      by congruence.
    destruct (show_pass_rate_spec s5 _ W5 D5')
      as (s6 & R6 & W6 & S6 & N6 & _).
    exists s6. split; [|split; [|split]].
    + unfold Main.body, mbind, M_bind. by rewrite R1, R2, R3, R4, R5.
    + by rewrite W6, W5.
    + rewrite S6, S5, S4, S3, S2, S1. done.
    + rewrite N6, N5, N4, length_map.
      by rewrite (nunique_vehicle_id_map with_label).
Qed.

Lemma Checkpoint_body_run `{Sorter} (fr : frame) :
  if decide (filter (λ r, test_type r = "NT" ∧ test_class_id r = 4) fr = []
             ∨ NoDup (map passed_of_code
                        (elements (test_result_categories (initial fr)))))
  then Checkpoint.body (initial fr) = Raised TypeError
  else if existsb age_overflows
            (filter (λ r, test_type r = "NT" ∧ test_class_id r = 4) fr)
  then Checkpoint.body (initial fr) = Raised OverflowError
  else ∃ s', Checkpoint.body (initial fr) = Ok (tt, s')
        ∧ working_table s'
          = Some (map with_features
                    (filter (λ r, test_type r = "NT" ∧ test_class_id r = 4) fr))
        ∧ shown s'
          = [mean (map label_of
                     (filter (λ r, test_type r = "NT" ∧ test_class_id r = 4) fr))]
        ∧ num_duplicate_vehicle_ids s'
          = Some (Z.of_nat (length
                    (filter (λ r, test_type r = "NT" ∧ test_class_id r = 4) fr))
                  - Z.of_nat (nunique vehicle_id
                    (filter (λ r, test_type r = "NT" ∧ test_class_id r = 4) fr))).
Proof.
  destruct (Checkpoint_filter_stage_spec (initial fr) fr) as (s1 & R1 & W1 & S1);
    [done|].
  assert (C1 : test_result_categories s1 = test_result_categories (initial fr)).
  { revert R1. unfold Checkpoint.filter_stage, mbind, M_bind.
    destruct (filter_test_type (initial fr)) as [[[] t]|] eqn:Q1; [|done].
    intros Q2. destruct (filter_test_type_keeps _ _ Q1) as (<- & _).
    by destruct (filter_test_class_keeps _ _ Q2) as (-> & _). }
  destruct (count_duplicates_spec s1 _ W1) as (s2 & R2 & W2 & S2 & N2).
  destruct (count_duplicates_keeps _ _ R2) as (C2 & _).
  destruct (dedup_statement_frame s2 _ W2) as (s3 & R3 & W3 & S3 & N3).
  destruct (dedup_statement_keeps _ _ R3) as (C3 & _).
  destruct (derive_test_result_passed_spec s3 _ W3)
    as (s4 & R4 & W4 & S4 & D4 & N4 & _).
  rewrite C3, C2, C1 in D4.
  pose proof (apply_dtype_category (test_result_categories (initial fr))
                (filter (λ r, test_type r = "NT" ∧ test_class_id r = 4) fr))
    as Hcat.
  case_decide as Hd.
  - apply Hcat in Hd. rewrite Hd in D4.
    unfold Checkpoint.body, mbind, M_bind.
    by rewrite R1, R2, R3, R4, (show_pass_rate_raises s4 _ W4 D4).
  - assert (D4' : test_result_passed_dtype s4 = Some dtype_number).
    { rewrite D4. destruct (apply_dtype _ _ _) eqn:E; [|done].
      destruct Hd. by apply Hcat. }
    destruct (show_pass_rate_spec s4 _ W4 D4')
      as (s5 & R5 & W5 & S5 & N5 & _).
    rewrite W4 in W5.
    destruct (existsb age_overflows (filter _ fr)) eqn:Hov.
    + unfold Checkpoint.body, mbind, M_bind. rewrite R1, R2, R3, R4, R5.
      rewrite (derive_vehicle_age_raises s5 _ W5); [done|].
      by rewrite existsb_age_overflows_with_label.
    + rewrite <- existsb_age_overflows_with_label in Hov.
      destruct (derive_vehicle_age_spec s5 _ W5 Hov)
        as (s6 & R6 & W6 & S6 & N6).
      destruct (derive_make_model_spec s6 _ W6) as (s7 & R7 & W7 & S7 & N7).
      exists s7. split; [|split; [|split]].
      * unfold Checkpoint.body, mbind, M_bind.
        by rewrite R1, R2, R3, R4, R5, R6.
      * rewrite W7, !map_map. done.
      * rewrite S7, S6, S5, S4, S3, S2, S1. done.
      * by rewrite N7, N6, N5, N4, N3, N2.
Qed.

(** X14.  The statements of [main.py] on [df], lines 32 to 66.  When no
    row of the loaded table has [test_type] "NT", or at most one of
    the categories of [test_result] is not "P", they end in the
    [TypeError] of the mean of line 42, taken on a categorical.
    Otherwise they run without error: the working table they leave has
    the rows of the loaded table whose [test_type] is "NT", all of them
    and in their order, each with its label; the two means shown are
    the same number; the count of duplicated vehicle ids is that of
    these rows. *)
Theorem main_body_final_table `{Sorter} (fr : frame) :
  if decide (filter (λ r, test_type r = "NT") fr = []
             ∨ NoDup (map passed_of_code
                        (elements (test_result_categories (initial fr)))))
  then Main.body (initial fr) = Raised TypeError
  else ∃ s' m, Main.body (initial fr) = Ok (tt, s')
        ∧ working_table s'
          = Some (map with_label (filter (λ r, test_type r = "NT") fr))
        ∧ shown s' = [m; m]
        ∧ (in_unit_interval m = true
           ↔ ∃ r code, r ∈ filter (λ r, test_type r = "NT") fr
                       ∧ test_result r = Text code)
        ∧ num_duplicate_vehicle_ids s'
          = Some (Z.of_nat (length (filter (λ r, test_type r = "NT") fr))
                  - Z.of_nat (nunique vehicle_id
                                (filter (λ r, test_type r = "NT") fr))).
Proof.
  pose proof (Main_body_run fr) as Hrun. case_decide; [done|].
  destruct Hrun as (s' & R & W & S & N).
  exists s', (mean (map label_of (filter (λ r, test_type r = "NT") fr))).
  split; [done|]. split; [done|]. split; [done|].
  split; [apply mean_labels_unit_interval | done].
Qed.

(** X15.  The statements of the checkpoint on [df], lines 42 to 77.
    When no row of the loaded table has [test_type] "NT" and
    [test_class_id] 4, or at most one of the categories of
    [test_result] is not "P", they end in the [TypeError] of the mean
    of line 71; otherwise, when the two dates of one of these rows are
    too far apart for a timedelta, in the [OverflowError] of line 74.
    Otherwise they run without error: the working table they leave has
    the rows of the loaded table whose [test_type] is "NT" and whose
    [test_class_id] is 4, all of them and in their order, each with its
    label, its age and its make and model; the count of duplicated
    vehicle ids is that of these rows. *)
Theorem checkpoint_body_final_table `{Sorter} (fr : frame) :
  if decide (filter (λ r, test_type r = "NT" ∧ test_class_id r = 4) fr = []
             ∨ NoDup (map passed_of_code
                        (elements (test_result_categories (initial fr)))))
  then Checkpoint.body (initial fr) = Raised TypeError
  else if existsb age_overflows
            (filter (λ r, test_type r = "NT" ∧ test_class_id r = 4) fr)
  then Checkpoint.body (initial fr) = Raised OverflowError
  else ∃ s', Checkpoint.body (initial fr) = Ok (tt, s')
        ∧ working_table s'
          = Some (map with_features
                    (filter (λ r, test_type r = "NT" ∧ test_class_id r = 4) fr))
        ∧ num_duplicate_vehicle_ids s'
          = Some (Z.of_nat (length
                    (filter (λ r, test_type r = "NT" ∧ test_class_id r = 4) fr))
                  - Z.of_nat (nunique vehicle_id
                    (filter (λ r, test_type r = "NT" ∧ test_class_id r = 4) fr))).
Proof.
  pose proof (Checkpoint_body_run fr) as Hrun. case_decide; [done|].
  destruct (existsb age_overflows _); [done|].
  destruct Hrun as (s' & R & W & S & N). by exists s'.
Qed.

Lemma type_normalizer_result `{DateParser} (rows : list RawRecord) :
  type_normalizer rows
  = if forallb (λ r, parseable (raw_test_date r)) rows
    then Ok (converted rows)
    else Raised ValueError.
Proof.
  unfold type_normalizer, converted.
  rewrite to_datetime_raise, to_datetime_coerce.
  rewrite forallb_map_compose, !map_map.
  destruct (forallb _ rows); [|done]. cbn [result_bind]. f_equal.
  apply (assign_dates_map (λ r, coerced (raw_test_date r))
                          (λ r, coerced (raw_first_use_date r))).
Qed.

(** X16.  From the date conversion to the last statement on [df]
    ([main.py] lines 16-66, checkpoint lines 30-77) there are three
    errors, in this order.  When some test date does not parse, both
    scripts end in the [ValueError] of the conversion.  Otherwise, when
    the filtered table is empty or at most one of the categories of
    [test_result] is not "P", in the [TypeError] of the mean.
    Otherwise the checkpoint ends in the [OverflowError] of line 74
    when the two dates of a row of its filtered table are too far
    apart.  In every other case all the statements succeed. *)
Theorem scripts_errors `{DateParser} `{Sorter} (rows : list RawRecord) :
  if forallb (λ r, parseable (raw_test_date r)) rows
  then (if decide (filter (λ r, test_type r = "NT") (converted rows) = []
                   ∨ NoDup (map passed_of_code
                       (elements (test_result_categories
                                    (initial (converted rows))))))
        then Main.script rows = Raised TypeError
        else ∃ s, Main.script rows = Ok s)
       ∧ (if decide (filter (λ r, test_type r = "NT" ∧ test_class_id r = 4)
                       (converted rows) = []
                     ∨ NoDup (map passed_of_code
                         (elements (test_result_categories
                                      (initial (converted rows))))))
          then Checkpoint.script rows = Raised TypeError
          else if existsb age_overflows
                    (filter (λ r, test_type r = "NT" ∧ test_class_id r = 4)
                       (converted rows))
          then Checkpoint.script rows = Raised OverflowError
          else ∃ s, Checkpoint.script rows = Ok s)
  else Main.script rows = Raised ValueError
       ∧ Checkpoint.script rows = Raised ValueError.
Proof.
  unfold Main.script, Checkpoint.script, run_script.
  rewrite type_normalizer_result.
  destruct (forallb _ rows); [|done]. cbn [result_bind]. split.
  - pose proof (Main_body_run (converted rows)) as Hrun.
    case_decide; [by rewrite Hrun|].
    destruct Hrun as (s & -> & _). by exists s.
  - pose proof (Checkpoint_body_run (converted rows)) as Hrun.
    case_decide; [by rewrite Hrun|].
    destruct (existsb age_overflows _); [by rewrite Hrun|].
    destruct Hrun as (s & -> & _). by exists s.
Qed.

(** ** The share of the hundred most frequent makes and models (lines
    80 and 92 of the checkpoint) *)

Lemma column_make_model (fr : frame) :
  column make_model AttributeError (map with_features fr)
  = Ok (map (λ r, (astype_str (make r) ++ " " ++ astype_str (model r))%string) fr).
Proof.
  unfold column. induction fr as [|r fr IH]; [done|].
  cbn [map result_mapM]. rewrite IH. done.
Qed.

Lemma top100_share_features `{FreqSorter} (fr : frame) :
  top100_share (map with_features fr)
  = Ok match fr with
       | [] => NaN
       | _ :: _ =>
           Num (Z.of_nat (sum_nat (map snd (take 100
                  (value_counts
                     (map (λ r, (astype_str (make r) ++ " "
                                 ++ astype_str (model r))%string) fr)))))
                # Pos.of_nat (length fr))
       end.
Proof.
  unfold top100_share, df_make_model_freq. rewrite column_make_model.
  cbn [result_bind]. destruct fr as [|r fr]; [done|].
  cbn [map length]. by rewrite length_map.
Qed.

Lemma top100_sum_le `{FreqSorter} (column_ : list string) :
  (sum_nat (map snd (take 100 (value_counts column_))) ≤ length column_)%nat.
Proof.
  rewrite <- (value_counts_sum column_).
  change (map snd (take 100 (value_counts column_)))
    with (snd <$> take 100 (value_counts column_)).
  rewrite fmap_take. apply sum_nat_take_le.
Qed.

(** The table line 92 reads, when lines 42 to 77 have run. *)
Lemma printed_share_run `{Sorter} `{FreqSorter} (fr : frame) :
  filter (λ r, test_type r = "NT" ∧ test_class_id r = 4) fr ≠ [] →
  ¬ NoDup (map passed_of_code
             (elements (test_result_categories (initial fr)))) →
  existsb age_overflows
    (filter (λ r, test_type r = "NT" ∧ test_class_id r = 4) fr) = false →
  printed_share fr
  = top100_share
      (map with_features
         (filter (λ r, test_type r = "NT" ∧ test_class_id r = 4) fr)).
Proof.
  intros Hne Hcat Hov. pose proof (Checkpoint_body_run fr) as Hrun.
  rewrite decide_False in Hrun by (by intros [?|?]). rewrite Hov in Hrun.
  destruct Hrun as (s' & Hrun & Hwt & _).
  unfold printed_share, table_after. by rewrite Hrun, Hwt.
Qed.

(** X17.  When lines 42 to 77 of the checkpoint run without error (the
    filtered table has rows, at least two categories of [test_result]
    are not "P", and no age overflows), the share computed by line 92
    is a number between 0 and 1, whatever order the frequency table
    gives to values with equal counts. *)
Theorem printed_share_bounds `{Sorter} `{FreqSorter} (fr : frame) :
  filter (λ r, test_type r = "NT" ∧ test_class_id r = 4) fr ≠ [] →
  ¬ NoDup (map passed_of_code
             (elements (test_result_categories (initial fr)))) →
  existsb age_overflows
    (filter (λ r, test_type r = "NT" ∧ test_class_id r = 4) fr) = false →
  ∃ q, printed_share fr = Ok (Num q) ∧ (0 <= q)%Q ∧ (q <= 1)%Q.
Proof.
  intros Hne Hcat Hov. rewrite (printed_share_run fr Hne Hcat Hov).
  rewrite top100_share_features.
  destruct (filter _ fr) as [|r l] eqn:E; [done|].
  eexists. split; [reflexivity|].
  pose proof (top100_sum_le
                (map (λ r, (astype_str (make r) ++ " "
                            ++ astype_str (model r))%string) (r :: l)))
    as Hle.
  rewrite length_map in Hle.
  assert (Hunit : in_unit_interval
            (Num (Z.of_nat (sum_nat (map snd (take 100
                    (value_counts
                       (map (λ r, (astype_str (make r) ++ " "
                                   ++ astype_str (model r))%string) (r :: l))))))
                  # Pos.of_nat (length (r :: l)))) = true).
  { apply ratio_unit_interval; [lia | done]. }
  unfold in_unit_interval, fnum_leb in Hunit.
  apply andb_prop in Hunit as [Hlo Hhi].
  split; apply Qle_bool_iff.
  - by destruct (Qle_bool 0 _).
  - by destruct (Qle_bool _ 1).
Qed.

Lemma printed_share_bounds_witness :
  filter (λ r, test_type r = "NT" ∧ test_class_id r = 4) fleet ≠ []
  ∧ ¬ NoDup (map passed_of_code
               (elements (test_result_categories (initial fleet))))
  ∧ existsb age_overflows
      (filter (λ r, test_type r = "NT" ∧ test_class_id r = 4) fleet) = false
  ∧ ∃ q, printed_share (H := merge_sorter) (H0 := merge_freq_sorter) fleet
         = Ok (Num q) ∧ (0 <= q)%Q ∧ (q <= 1)%Q.
Proof.
  assert (H1 : filter (λ r, test_type r = "NT" ∧ test_class_id r = 4) fleet ≠ [])
    by (vm_compute; discriminate).
  assert (H2 : ¬ NoDup (map passed_of_code
                          (elements (test_result_categories (initial fleet))))).
  { apply (bool_decide_unpack _). by vm_compute. }
  assert (H3 : existsb age_overflows
                 (filter (λ r, test_type r = "NT" ∧ test_class_id r = 4) fleet)
               = false) by (vm_compute; reflexivity).
  split; [exact H1|]. split; [exact H2|]. split; [exact H3|].
  exact (printed_share_bounds (H := merge_sorter) (H0 := merge_freq_sorter)
           fleet H1 H2 H3).
Defined.

(** X18.  When lines 42 to 77 of the checkpoint run without error and
    the filtered table has at most a hundred distinct values of
    [make_model], the share computed by line 92 is exactly one. *)
Theorem printed_share_is_one `{Sorter} `{FreqSorter} (fr : frame) :
  filter (λ r, test_type r = "NT" ∧ test_class_id r = 4) fr ≠ [] →
  ¬ NoDup (map passed_of_code
             (elements (test_result_categories (initial fr)))) →
  existsb age_overflows
    (filter (λ r, test_type r = "NT" ∧ test_class_id r = 4) fr) = false →
  (length (unique (map (λ r, (astype_str (make r) ++ " "
                              ++ astype_str (model r))%string)
             (filter (λ r, test_type r = "NT" ∧ test_class_id r = 4%Z) fr)))
   ≤ 100)%nat →
  ∃ q, printed_share fr = Ok (Num q) ∧ (q == 1)%Q.
Proof.
  intros Hne Hcat Hov Hfew. rewrite (printed_share_run fr Hne Hcat Hov).
  rewrite top100_share_features.
  destruct (filter _ fr) as [|r l] eqn:E; [done|].
  eexists. split; [reflexivity|].
  rewrite take_ge by (by rewrite value_counts_length).
  rewrite value_counts_sum, length_map.
  unfold Qeq. cbn [Qnum Qden length].
  rewrite <- Pos.of_nat_succ, Zpos_P_of_succ_nat, Nat2Z.inj_succ. lia.
Qed.

Lemma printed_share_is_one_witness :
  filter (λ r, test_type r = "NT" ∧ test_class_id r = 4) fleet ≠ []
  ∧ ¬ NoDup (map passed_of_code
               (elements (test_result_categories (initial fleet))))
  ∧ existsb age_overflows
      (filter (λ r, test_type r = "NT" ∧ test_class_id r = 4) fleet) = false
  ∧ (length (unique (map (λ r, (astype_str (make r) ++ " "
                                ++ astype_str (model r))%string)
               (filter (λ r, test_type r = "NT" ∧ test_class_id r = 4%Z) fleet)))
     ≤ 100)%nat
  ∧ ∃ q, printed_share (H := merge_sorter) (H0 := merge_freq_sorter) fleet
         = Ok (Num q) ∧ (q == 1)%Q.
Proof.
  assert (H1 : filter (λ r, test_type r = "NT" ∧ test_class_id r = 4) fleet ≠ [])
    by (vm_compute; discriminate).
  assert (H2 : ¬ NoDup (map passed_of_code
                          (elements (test_result_categories (initial fleet))))).
  { apply (bool_decide_unpack _). by vm_compute. }
  assert (H3 : existsb age_overflows
                 (filter (λ r, test_type r = "NT" ∧ test_class_id r = 4) fleet)
               = false) by (vm_compute; reflexivity).
  assert (H4 : (length (unique (map (λ r, (astype_str (make r) ++ " "
                                ++ astype_str (model r))%string)
               (filter (λ r, test_type r = "NT" ∧ test_class_id r = 4%Z) fleet)))
     ≤ 100)%nat) by (vm_compute; lia).
  split; [exact H1|]. split; [exact H2|]. split; [exact H3|]. split; [exact H4|].
  exact (printed_share_is_one (H := merge_sorter) (H0 := merge_freq_sorter)
           fleet H1 H2 H3 H4).
Defined.
